(** * The Cycle.js driver for router5 (apps/cycle/router5/driver.js)

    A shallow embedding of [makeRouterDriver] and [normaliseRequest], with
    the part of RxJS and of the router5 instance they rely on, and the
    properties of the streams and of the command sink that follow from it. *)

From Stdlib Require Import List String ZArith Bool Lia.
Import ListNotations.
Local Open Scope string_scope.
Local Open Scope list_scope.
Local Set Warnings "-register-all".

(** ** JavaScript values *)

(** Objects are association lists of their own properties, arrays are lists.
    Numbers are integers, which is all the driver ever compares. *)
Inductive value : Type :=
| VUndefined
| VNull
| VBool (b : bool)
| VNum (n : Z)
| VStr (s : string)
| VArr (items : list value)
| VObj (fields : list (string * value)).

(** [a === b]. Primitives compare by value. Arrays and objects compare by
    reference; the model keeps no identities and the driver only compares
    values that reach it from different places, so two of them are never
    the same reference. *)
Definition strict_eq (a b : value) : bool :=
  match a, b with
  | VUndefined, VUndefined => true
  | VNull, VNull => true
  | VBool x, VBool y => Bool.eqb x y
  | VNum x, VNum y => Z.eqb x y
  | VStr x, VStr y => String.eqb x y
  | _, _ => false
  end.

(** [o.k]: the property [k] of an object, [undefined] when it has none. *)
Fixpoint lookup (k : string) (fields : list (string * value)) : value :=
  match fields with
  | [] => VUndefined
  | (k', v) :: rest => if String.eqb k k' then v else lookup k rest
  end.

Definition get (k : string) (o : value) : value :=
  match o with
  | VObj fields => lookup k fields
  | _ => VUndefined
  end.

(** [args[i]] of a rest-argument list. *)
Definition arg (i : nat) (args : list value) : value := nth i args VUndefined.

(** [Array.isArray(v)] and [typeof v === 'string']. *)
Definition isArray (v : value) : bool :=
  match v with VArr _ => true | _ => false end.

Definition isString (v : value) : bool :=
  match v with VStr _ => true | _ => false end.

(** [a.concat(x)]: an array argument is spread, anything else is appended. *)
Definition concat (a : list value) (x : value) : list value :=
  match x with
  | VArr items => a ++ items
  | _ => a ++ [x]
  end.

(** [names.indexOf(x)] on an array of strings: the position of the first
    element strictly equal to [x], or -1. *)
Fixpoint indexOf_from (i : Z) (names : list string) (x : value) : Z :=
  match names with
  | [] => (-1)%Z
  | n :: rest => if strict_eq (VStr n) x then i else indexOf_from (i + 1)%Z rest x
  end.

Definition indexOf (names : list string) (x : value) : Z := indexOf_from 0%Z names x.

(** [names.join(sep)]. *)
Definition join (sep : string) (names : list string) : string := String.concat sep names.

(** [new Error(message)]. *)
Definition Error (message : string) : value := VObj [("message", VStr message)].

(** A call either returns or throws. *)
Inductive result (A : Type) : Type :=
| Return (a : A)
| Throw (e : value).
Arguments Return {A} a.
Arguments Throw {A} e.

(** ** The router5 instance and the world around the driver *)

(** The hooks a router5 plugin may implement. *)
Inductive hook : Type :=
| OnStart
| OnStop
| OnTransitionSuccess
| OnTransitionError
| OnTransitionStart
| OnTransitionCancel.

(** An observer of an Rx subscription: [onNext v] runs the operators between
    the place the observer is handed to and the subscriber at the end of the
    chain, and gives the values that subscriber receives; [target] tells
    which subscriber that is. *)
Record Observer : Type := {
  target : nat;
  onNext : value -> list value
}.

(** A plugin object. Each handler of the driver's plugin does nothing but
    [observer.onNext(event)]; it is kept here as the event it builds from the
    arguments the router calls it with. *)
Record Plugin : Type := {
  name : string;
  onStart : list value -> value;
  onStop : list value -> value;
  onTransitionSuccess : list value -> value;
  onTransitionError : list value -> value;
  onTransitionStart : list value -> value;
  onTransitionCancel : list value -> value
}.

Definition handler (p : Plugin) (h : hook) : list value -> value :=
  match h with
  | OnStart => onStart p
  | OnStop => onStop p
  | OnTransitionSuccess => onTransitionSuccess p
  | OnTransitionError => onTransitionError p
  | OnTransitionStart => onTransitionStart p
  | OnTransitionCancel => onTransitionCancel p
  end.

(** One [router.usePlugin] call: the plugin and the observer its handlers
    push to. *)
Record Registration : Type := {
  plugin : Plugin;
  observer : Observer
}.

(** The router as the driver sees it: the [started] flag, the value
    [getState()] returns, the plugins registered so far (one entry per
    [usePlugin] call, in order) and the methods called on it so far.
    [raises] tells what a method called through the command sink throws,
    if it throws, given the [started] flag and the state at the call, the
    method name and the arguments; the [router.start()] of a subscription
    is taken to return. *)
Record Router : Type := {
  started : bool;
  getState : value;
  plugins : list Registration;
  calls : list (string * list value);
  raises : bool -> value -> string -> list value -> option value
}.

Inductive ConsoleEntry : Type :=
| ConsoleLog (v : value)
| ConsoleError (e : value).

(** The mutable world: the router, what each subscriber has received so far
    (subscribers are numbered in subscription order) and the console. *)
Record World : Type := {
  router : Router;
  inbox : list (list value);
  console : list ConsoleEntry
}.

Definition set_router (r : Router) (w : World) : World :=
  {| router := r; inbox := inbox w; console := console w |}.

Definition set_inbox (b : list (list value)) (w : World) : World :=
  {| router := router w; inbox := b; console := console w |}.

Definition console_log (v : value) (w : World) : World :=
  {| router := router w; inbox := inbox w; console := console w ++ [ConsoleLog v] |}.

Definition console_error (e : value) (w : World) : World :=
  {| router := router w; inbox := inbox w; console := console w ++ [ConsoleError e] |}.

(** [router.usePlugin(...)]: one more registered plugin. *)
Definition usePlugin (reg : Registration) (w : World) : World :=
  let r := router w in
  set_router {| started := started r; getState := getState r;
                plugins := plugins r ++ [reg]; calls := calls r;
                raises := raises r |} w.

(** [router[method].apply(router, args)] for a call that returns. The call
    is recorded; of what the router does in return only the [started] flag
    matters to the driver: [start] raises it and [stop] lowers it. The
    notifications the router sends as a consequence, and its changes of
    state, are not part of the call: they are the [emit]s and the worlds
    that follow it. *)
Definition router_call (method : string) (args : list value) (w : World) : World :=
  let r := router w in
  set_router {| started := if String.eqb method "start" then true
                           else if String.eqb method "stop" then false
                           else started r;
                getState := getState r;
                plugins := plugins r;
                calls := calls r ++ [(method, args)];
                raises := raises r |} w.

(** A call of a router method that throws: the call is recorded and
    nothing else changes. *)
Definition router_call_thrown (method : string) (args : list value) (w : World) : World :=
  let r := router w in
  set_router {| started := started r; getState := getState r; plugins := plugins r;
                calls := calls r ++ [(method, args)]; raises := raises r |} w.

(** The router starts or stops: the [started] flag changes. *)
Definition set_started (b : bool) (w : World) : World :=
  let r := router w in
  set_router {| started := b; getState := getState r; plugins := plugins r;
                calls := calls r; raises := raises r |} w.

(** The values subscriber [sid] has received. *)
Definition received (sid : nat) (w : World) : list value := nth sid (inbox w) [].

Fixpoint append_at (sid : nat) (vs : list value) (boxes : list (list value))
  : list (list value) :=
  match boxes, sid with
  | [], _ => []
  | b :: rest, O => (b ++ vs) :: rest
  | b :: rest, S i => b :: append_at i vs rest
  end.

(** [observer.onNext(v)]. *)
Definition deliver (o : Observer) (v : value) (w : World) : World :=
  set_inbox (append_at (target o) (onNext o v) (inbox w)) w.

(** The router notifies its plugins: it calls the handler of [h] of every
    registered plugin, in registration order, with [args]. *)
Definition emit (h : hook) (args : list value) (w : World) : World :=
  fold_left (fun w' reg => deliver (observer reg) (handler (plugin reg) h args) w')
            (plugins (router w)) w.

(** A lifecycle notification: the hook and the arguments of the call. *)
Definition notification : Type := (hook * list value)%type.

Definition emit_all (ns : list notification) (w : World) : World :=
  fold_left (fun w' n => emit (fst n) (snd n) w') ns w.

(** ** The part of RxJS the driver uses *)

Module Rx.

(** A cold observable is its subscribe function. *)
Definition Observable : Type := Observer -> World -> World.

(** [source.filter(predicate)] *)
Definition filter (predicate : value -> bool) (source : Observable) : Observable :=
  fun o => source {| target := target o;
                     onNext := fun v => if predicate v then onNext o v else [] |}.

(** [source.map(selector)], for a selector that does not throw. *)
Definition map (selector : value -> value) (source : Observable) : Observable :=
  fun o => source {| target := target o;
                     onNext := fun v => onNext o (selector v) |}.

(** [source.startWith(v)]: [v] is handed over first, then [source] is
    subscribed to. *)
Definition startWith (v : value) (source : Observable) : Observable :=
  fun o w => source o (deliver o v w).

(** [observable.subscribe(...)] by a new subscriber, which then receives
    every value as it is. *)
Definition subscribe (source : Observable) (w : World) : World :=
  source {| target := List.length (inbox w); onNext := fun v => [v] |}
         (set_inbox (inbox w ++ [[]]) w).

(** How a subscription stands after the values it was given: still
    listening; over, after the selector threw and [onError] was called; or
    over, after the [onNext] callback threw [e], which Rx rethrows to the
    producer of the value without calling [onError]. *)
Inductive subscription : Type :=
| Active
| Failed
| Thrown (e : value).

(** [request$.map(selector).subscribe(onNext, onError)] over the values
    [request$] produces, in order. When the selector throws, [map] hands
    the exception to [onError] and the subscription is over; when the
    [onNext] callback throws, the subscription is disposed of and the
    exception goes to the producer. Either way no later value reaches the
    selector. *)
Fixpoint subscribe_map {A : Type}
    (selector : value -> World -> World * result A)
    (next : A -> World -> World * result unit) (error : value -> World -> World)
    (values : list value) (w : World) : World * subscription :=
  match values with
  | [] => (w, Active)
  | v :: rest =>
      match selector v w with
      | (w1, Return a) =>
          match next a w1 with
          | (w2, Return _) => subscribe_map selector next error rest w2
          | (w2, Throw e) => (w2, Thrown e)
          end
      | (w1, Throw e) => (error e w1, Failed)
      end
  end.

End Rx.

(** ** driver.js *)

Definition sourceMethods : list string :=
  ["getState"; "buildUrl"; "buildPath"; "matchUrl"; "matchPath";
   "areStatesDescendants"; "isActive"].

Definition sinkMethods : list string :=
  ["cancel"; "start"; "stop"; "navigate"; "canActivate"; "canDeactivate"].

Definition sink_error_message : string :=
  ("A Router5 sink argument should be a string (method name) or"
   ++ " an object which first element is a valid metod name, followed by its arguments."
   ++ " Available sink methods are: " ++ join "," sinkMethods ++ ".")%string.

(** [normaliseRequest(req)]: logs the request, then returns the array of a
    method name and its arguments, or throws. *)
Definition normaliseRequest (req : value) (w : World) : World * result (list value) :=
  let w1 := console_log req w in
  let normReq := if isArray req || isString req then concat [] req else [] in
  if (indexOf sinkMethods (arg 0 normReq) =? -1)%Z
  then (w1, Throw (Error sink_error_message))
  else (w1, Return normReq).

(** [router[method].apply(router, args)] for a method that may throw. *)
Definition router_apply (method : string) (args : list value) (w : World)
  : World * result unit :=
  let r := router w in
  match raises r (started r) (getState r) method args with
  | Some e => (router_call_thrown method args w, Throw e)
  | None => (router_call method args w, Return tt)
  end.

(** [([ method, ...args ]) => router[method].apply(router, args)]. What
    [normaliseRequest] returns always starts with a string; for anything
    else there is no method to apply. *)
Definition dispatch (normReq : list value) (w : World) : World * result unit :=
  match arg 0 normReq with
  | VStr method => router_apply method (tl normReq) w
  | _ => (w, Throw (Error "router[method] is undefined"))
  end.

(** [pushState(type, isError)] and [push(type)], as the event they hand to
    the observer. *)
Definition pushState (type : string) (isError : bool) (args : list value) : value :=
  let toState := arg 0 args in
  let fromState := arg 1 args in
  let rest := skipn 2 args in
  let routerEvt := [("type", VStr type); ("toState", toState); ("fromState", fromState)] in
  if isError then VObj (routerEvt ++ [("error", arg 0 rest)]) else VObj routerEvt.

Definition push (type : string) (_ : list value) : value :=
  VObj [("type", VStr type)].

Definition cyclePlugin : Plugin :=
  {| name := "CYCLE_DRIVER";
     onStart := push "start";
     onStop := push "stop";
     onTransitionSuccess := pushState "transitionSuccess" false;
     onTransitionError := pushState "transitionError" true;
     onTransitionStart := pushState "transitionStart" false;
     onTransitionCancel := pushState "transitionCancel" false |}.

(** What the router5.transition-path library returns: an object of which
    the driver reads the [intersection] property. *)
Record TransitionPath : Type := { intersection : value }.

(** The streams of the object the driver function returns. [$] is written [_]. The
    seven query methods of [sourceApi] only forward to the router and are
    left out. *)
Module Bundle.
Record t : Type := {
  start_ : Rx.Observable;
  stop_ : Rx.Observable;
  transitionStart_ : Rx.Observable;
  transitionCancel_ : Rx.Observable;
  transitionSuccess_ : Rx.Observable;
  transitionError_ : Rx.Observable;
  route_ : Rx.Observable;
  routeNode_ : value -> World -> Rx.Observable;
  transitionRoute_ : Rx.Observable;
  error_ : Rx.Observable
}.
End Bundle.

Section MakeRouterDriver.

(** The function of the router5.transition-path library, taken as it is
    and as returning for every pair of states it is called with. *)
Variable transitionPath : value -> value -> TransitionPath.

(** The second argument of [makeRouterDriver], and the world at the time
    [makeRouterDriver] is called. *)
Variable autostart : bool.
Variable created : World.

(** The subscribe function given to [Rx.Observable.create]. *)
Definition transition_ : Rx.Observable :=
  fun observer w =>
    let w1 := usePlugin {| plugin := cyclePlugin; observer := observer |} w in
    if negb (started (router w1)) && autostart
    then router_call "start" [] w1
    else w1.

Definition filter (type : string) : Rx.Observable :=
  Rx.filter (fun e => strict_eq (get "type" e) (VStr type)) transition_.

Definition slice (type : string) : Rx.Observable :=
  Rx.map (fun e => get "type" e) (filter type).

Definition sliceSlate (type : string) : Rx.Observable :=
  Rx.map (fun e => VObj [("toState", get "toState" e); ("fromState", get "fromState" e)])
         (filter type).

Definition transitionRoute_ : Rx.Observable :=
  Rx.startWith VNull
    (Rx.map (fun e => if strict_eq (get "type" e) (VStr "transitionStart")
                      then get "toState" e else VNull)
            transition_).

Definition error_ : Rx.Observable :=
  Rx.startWith VNull
    (Rx.map (fun e => if strict_eq (get "type" e) (VStr "transitionError")
                      then get "error" e else VNull)
            transition_).

Definition routeState_ : Rx.Observable :=
  Rx.map (fun e =>
            let toState := get "toState" e in
            let fromState := get "fromState" e in
            VObj [("intersection", intersection (transitionPath toState fromState));
                  ("route", toState)])
         (Rx.filter (fun e => negb (strict_eq (get "toState" e) VNull))
                    (sliceSlate "transitionSuccess")).

(** [router.getState()] is an argument of [startWith]: it is evaluated
    where [route$] is defined, in the body of [makeRouterDriver]. *)
Definition route_ : Rx.Observable :=
  Rx.startWith (getState (router created))
               (Rx.map (fun rs => get "route" rs) routeState_).

(** [routeNode$(node)], called in the world [called]: there
    [router.getState()] is evaluated when [routeNode$] is called. *)
Definition routeNode_ (node : value) (called : World) : Rx.Observable :=
  Rx.filter (fun route => negb (strict_eq route VNull))
    (Rx.startWith (getState (router called))
       (Rx.map (fun rs => get "route" rs)
          (Rx.filter (fun rs => strict_eq (get "intersection" rs) node) routeState_))).

Definition observables : Bundle.t :=
  {| Bundle.start_ := slice "start";
     Bundle.stop_ := slice "stop";
     Bundle.transitionStart_ := sliceSlate "transitionStart";
     Bundle.transitionCancel_ := sliceSlate "transitionCancel";
     Bundle.transitionSuccess_ := sliceSlate "transitionSuccess";
     Bundle.transitionError_ := sliceSlate "transitionError";
     Bundle.route_ := route_;
     Bundle.routeNode_ := routeNode_;
     Bundle.transitionRoute_ := transitionRoute_;
     Bundle.error_ := error_ |}.

(** The function [makeRouterDriver] returns, applied to a [request$] that
    produces [requests]. *)
Definition driver (requests : list value) (w : World) : World * Bundle.t :=
  (fst (Rx.subscribe_map normaliseRequest dispatch console_error requests w), observables).

End MakeRouterDriver.

(** [makeRouterDriver(router, autostart = true)], called in the world
    [created]; a missing second argument is [None]. *)
Definition makeRouterDriver (transitionPath : value -> value -> TransitionPath)
    (autostart : option bool) (created : World)
  : list value -> World -> World * Bundle.t :=
  driver transitionPath (match autostart with Some b => b | None => true end) created.

(** The command sink alone: the world after the requests, and how the
    subscription stands then. *)
Definition sink_subscription (requests : list value) (w : World) : World * Rx.subscription :=
  Rx.subscribe_map normaliseRequest dispatch console_error requests w.

Definition sink (requests : list value) (w : World) : World :=
  fst (sink_subscription requests w).

(** A router that was just created: not started, no state, no plugin, and
    with methods that do not throw. *)
Definition fresh : World :=
  {| router := {| started := false; getState := VNull; plugins := []; calls := [];
                  raises := fun _ _ _ _ => None |};
     inbox := [];
     console := [] |}.

(** A router like [fresh] whose [navigate] throws when it is called without
    a route name. *)
Definition strict : World :=
  {| router := {| started := false; getState := VNull; plugins := []; calls := [];
                  raises := fun _ _ method args =>
                              match args with
                              | [] => if String.eqb method "navigate"
                                      then Some (Error "navigate needs a route name")
                                      else None
                              | _ => None
                              end |};
     inbox := [];
     console := [] |}.

(** The router completes a transition to [toState]: its state changes and
    it notifies its plugins. *)
Definition transition_success (toState : value) (w : World) : World :=
  let r := router w in
  emit OnTransitionSuccess [toState; getState r]
       (set_router {| started := started r; getState := toState;
                      plugins := plugins r; calls := calls r; raises := raises r |} w).

(** The latest value a subscriber has received. *)
Definition current (sid : nat) (w : World) : value := last (received sid w) VUndefined.

(** Every registered observer belongs to a subscriber that exists. *)
Definition wf (w : World) : Prop :=
  Forall (fun reg => target (observer reg) < List.length (inbox w)) (plugins (router w)).

(** What the registrations [regs] hand to subscriber [sid] when the router
    calls hook [h] with [args]. *)
Definition feed (sid : nat) (h : hook) (args : list value) (regs : list Registration)
  : list value :=
  flat_map (fun reg => if Nat.eqb (target (observer reg)) sid
                       then onNext (observer reg) (handler (plugin reg) h args)
                       else [])
           regs.

(** The streams of the returned object, by name; [RouteNode node called] is
    [routeNode$(node)] called in the world [called]. *)
Inductive stream : Type :=
| Start
| Stop
| TransitionStart
| TransitionCancel
| TransitionSuccess
| TransitionError
| Route
| TransitionRoute
| Error_
| RouteNode (node : value) (called : World).

Definition observable_of (b : Bundle.t) (s : stream) : Rx.Observable :=
  match s with
  | Start => Bundle.start_ b
  | Stop => Bundle.stop_ b
  | TransitionStart => Bundle.transitionStart_ b
  | TransitionCancel => Bundle.transitionCancel_ b
  | TransitionSuccess => Bundle.transitionSuccess_ b
  | TransitionError => Bundle.transitionError_ b
  | Route => Bundle.route_ b
  | TransitionRoute => Bundle.transitionRoute_ b
  | Error_ => Bundle.error_ b
  | RouteNode node called => Bundle.routeNode_ b node called
  end.

(** The filtered stream of each hook. *)
Definition filtered (b : Bundle.t) (h : hook) : Rx.Observable :=
  match h with
  | OnStart => Bundle.start_ b
  | OnStop => Bundle.stop_ b
  | OnTransitionSuccess => Bundle.transitionSuccess_ b
  | OnTransitionError => Bundle.transitionError_ b
  | OnTransitionStart => Bundle.transitionStart_ b
  | OnTransitionCancel => Bundle.transitionCancel_ b
  end.

Definition hook_eqb (a b : hook) : bool :=
  match a, b with
  | OnStart, OnStart | OnStop, OnStop
  | OnTransitionSuccess, OnTransitionSuccess | OnTransitionError, OnTransitionError
  | OnTransitionStart, OnTransitionStart | OnTransitionCancel, OnTransitionCancel => true
  | _, _ => false
  end.

(** Two router states and an error, for the examples. *)
Definition home : value := VObj [("name", VStr "home"); ("params", VObj [])].

Definition about : value := VObj [("name", VStr "about"); ("params", VObj [])].

Definition not_found : value := VObj [("code", VStr "ROUTE_NOT_FOUND")].

(** A [transitionPath] that answers [i] for every pair of states, for the
    examples. *)
Definition intersection_is (i : value) (toState fromState : value) : TransitionPath :=
  {| intersection := i |}.

(** Ancestry of node names, in the words of the data model: names are
    dot-segmented paths, and [a] is an ancestor of every name that extends it
    by further segments. *)
Definition ancestor (a n : string) : bool := String.prefix (a ++ ".")%string n.

(** ** Commands *)

(** A well-formed command, in the words of the command sink's contract: a
    bare method name of the sink vocabulary, or a sequence of such a name
    and its arguments. [command req method args] also names the method and
    the arguments [req] stands for. *)
Inductive command : value -> string -> list value -> Prop :=
| bare_name (method : string) :
    In method sinkMethods -> command (VStr method) method []
| name_and_args (method : string) (args : list value) :
    In method sinkMethods -> command (VArr (VStr method :: args)) method args.

Definition accepted (req : value) : Prop :=
  exists method args, command req method args.

(** The head of a request: a string is its own head, a non-empty sequence
    has its first element, anything else has none. *)
Definition head (req : value) : option value :=
  match req with
  | VStr _ => Some req
  | VArr (h :: _) => Some h
  | _ => None
  end.

Definition in_vocabulary (v : value) : Prop :=
  exists s, v = VStr s /\ In s sinkMethods.

(** A request that is not a string and not a non-empty sequence, or whose
    head is not in the sink vocabulary. *)
Definition rejected (req : value) : Prop :=
  head req = None \/ exists h, head req = Some h /\ ~ in_vocabulary h.

(** The router call a well-formed command stands for. *)
Definition call_of (req : value) : string * list value :=
  match req with
  | VStr method => (method, [])
  | VArr (VStr method :: args) => (method, args)
  | _ => (EmptyString, [])
  end.

(** ** The sink over a whole stream *)

(** A stream that leaves the subscription of the sink undisturbed: every
    request is a well-formed command, and the router method it calls
    returns. *)
Inductive undisturbed : list value -> World -> Prop :=
| undisturbed_nil (w : World) : undisturbed [] w
| undisturbed_cons (req : value) (method : string) (args rest : list value) (w : World) :
    command req method args ->
    raises (router w) (started (router w)) (getState (router w)) method args = None ->
    undisturbed rest (router_call method args (console_log req w)) ->
    undisturbed (req :: rest) w.

(** Whether [normaliseRequest] returns for a request. *)
Definition returns (req : value) : bool :=
  match snd (normaliseRequest req fresh) with
  | Return _ => true
  | Throw _ => false
  end.

(** The requests of a stream up to the first one [normaliseRequest] throws
    for, and that one. *)
Fixpoint accepted_prefix (requests : list value) : list value :=
  match requests with
  | [] => []
  | req :: rest => if returns req then req :: accepted_prefix rest else []
  end.

Fixpoint first_bad (requests : list value) : option value :=
  match requests with
  | [] => None
  | req :: rest => if returns req then first_bad rest else Some req
  end.

(** ** [sourceApi] *)

(** [{ ...o, [k]: v }]: the property [k] is replaced where it is, or added
    at the end. *)
Fixpoint set_property {A : Type} (k : string) (v : A) (o : list (string * A))
  : list (string * A) :=
  match o with
  | [] => [(k, v)]
  | (k', v') :: rest =>
      if String.eqb k k' then (k, v) :: rest else (k', v') :: set_property k v rest
  end.

Fixpoint property {A : Type} (k : string) (o : list (string * A)) : option A :=
  match o with
  | [] => None
  | (k', v) :: rest => if String.eqb k k' then Some v else property k rest
  end.

Section SourceApi.

(** [router[method].apply(router, args)] for the methods of the router that
    answer a query: what the call returns, and the world after it. *)
Variable router_method : string -> list value -> World -> World * value.

(** The [reduce] over [methods], from the object [init]. *)
Definition reduce_methods (methods : list string)
    (init : list (string * (list value -> World -> World * value)))
  : list (string * (list value -> World -> World * value)) :=
  fold_left (fun api method => set_property method (fun args => router_method method args) api)
            methods init.

Definition sourceApi : list (string * (list value -> World -> World * value)) :=
  reduce_methods sourceMethods [].

End SourceApi.

(** ** Histories *)

(** What can happen around a driver: the router notifies its plugins,
    someone subscribes to a stream of the returned object, or the driver
    function is called with a [request$] that produces some requests. The
    router raises its [started] flag when it notifies a start and lowers it
    when it notifies a stop. *)
Inductive action : Type :=
| Notify (n : notification)
| Subscribe (s : stream)
| Requests (requests : list value).

Section Histories.

Variable transitionPath : value -> value -> TransitionPath.
Variable autostart : bool.
Variable created : World.

Definition step (w : World) (a : action) : World :=
  match a with
  | Notify n =>
      emit (fst n) (snd n)
           match fst n with
           | OnStart => set_started true w
           | OnStop => set_started false w
           | _ => w
           end
  | Subscribe s => Rx.subscribe (observable_of (observables transitionPath autostart created) s) w
  | Requests requests => fst (driver transitionPath autostart created requests w)
  end.

Definition run (acts : list action) (w : World) : World := fold_left step acts w.

End Histories.

Definition notifications (acts : list action) : list notification :=
  flat_map (fun a => match a with Notify n => [n] | _ => [] end) acts.

Definition subscriptions (acts : list action) : nat :=
  List.length (List.filter (fun a => match a with Subscribe _ => true | _ => false end) acts).



(** ** Inboxes *)

Lemma append_at_length (sid : nat) (vs : list value) (boxes : list (list value)) :
  List.length (append_at sid vs boxes) = List.length boxes.
Proof.
  revert sid; induction boxes as [|b rest IH]; intros [|i]; simpl; auto.
Qed.

Lemma append_at_same (sid : nat) (vs : list value) (boxes : list (list value)) :
  sid < List.length boxes ->
  nth sid (append_at sid vs boxes) [] = nth sid boxes [] ++ vs.
Proof.
  revert sid; induction boxes as [|b rest IH]; intros [|i] H; simpl in *; try lia; auto.
  apply IH; lia.
Qed.

Lemma append_at_other (sid i : nat) (vs : list value) (boxes : list (list value)) :
  i <> sid ->
  nth sid (append_at i vs boxes) [] = nth sid boxes [].
Proof.
  revert sid i; induction boxes as [|b rest IH]; intros [|s] [|i] H; simpl; auto; try lia.
Qed.

Lemma append_at_nil (sid : nat) (boxes : list (list value)) :
  append_at sid [] boxes = boxes.
Proof.
  revert sid; induction boxes as [|b rest IH]; intros [|i]; simpl; auto.
  - now rewrite app_nil_r.
  - now rewrite IH.
Qed.

Lemma deliver_router (o : Observer) (v : value) (w : World) :
  router (deliver o v w) = router w.
Proof. reflexivity. Qed.

Lemma deliver_console (o : Observer) (v : value) (w : World) :
  console (deliver o v w) = console w.
Proof. reflexivity. Qed.

Lemma deliver_length (o : Observer) (v : value) (w : World) :
  List.length (inbox (deliver o v w)) = List.length (inbox w).
Proof. apply append_at_length. Qed.

Lemma deliver_received (o : Observer) (v : value) (w : World) (sid : nat) :
  sid < List.length (inbox w) ->
  received sid (deliver o v w) =
  received sid w ++ (if Nat.eqb (target o) sid then onNext o v else []).
Proof.
  intros H. unfold received, deliver; simpl.
  destruct (Nat.eqb_spec (target o) sid) as [->|Hne].
  - now apply append_at_same.
  - rewrite append_at_other by assumption. now rewrite app_nil_r.
Qed.

(** ** Notifications *)

Lemma emit_fold_facts (h : hook) (args : list value) (regs : list Registration) (w : World) :
  let w' := fold_left
              (fun w' reg => deliver (observer reg) (handler (plugin reg) h args) w')
              regs w in
  router w' = router w /\ console w' = console w /\
  List.length (inbox w') = List.length (inbox w) /\
  forall sid, sid < List.length (inbox w) ->
              received sid w' = received sid w ++ feed sid h args regs.
Proof.
  revert w; induction regs as [|reg regs IH]; intros w; simpl.
  - repeat split; auto. intros sid _. now rewrite app_nil_r.
  - destruct (IH (deliver (observer reg) (handler (plugin reg) h args) w))
      as (Hr & Hc & Hl & Hrec).
    rewrite Hr, Hc, Hl, deliver_length. repeat split; auto.
    intros sid Hsid. rewrite Hrec by (rewrite deliver_length; exact Hsid).
    rewrite deliver_received by exact Hsid. now rewrite <- app_assoc.
Qed.

Lemma emit_router (h : hook) (args : list value) (w : World) :
  router (emit h args w) = router w.
Proof. apply (emit_fold_facts h args (plugins (router w)) w). Qed.


Lemma emit_length (h : hook) (args : list value) (w : World) :
  List.length (inbox (emit h args w)) = List.length (inbox w).
Proof. apply (emit_fold_facts h args (plugins (router w)) w). Qed.

Lemma emit_received (h : hook) (args : list value) (w : World) (sid : nat) :
  sid < List.length (inbox w) ->
  received sid (emit h args w) = received sid w ++ feed sid h args (plugins (router w)).
Proof. apply (emit_fold_facts h args (plugins (router w)) w). Qed.

Lemma emit_all_router (ns : list notification) (w : World) :
  router (emit_all ns w) = router w.
Proof.
  revert w; induction ns as [|n ns IH]; intros w; simpl; auto.
  unfold emit_all in IH. now rewrite IH, emit_router.
Qed.

Lemma emit_all_length (ns : list notification) (w : World) :
  List.length (inbox (emit_all ns w)) = List.length (inbox w).
Proof.
  revert w; induction ns as [|n ns IH]; intros w; simpl; auto.
  unfold emit_all in IH. now rewrite IH, emit_length.
Qed.

Lemma emit_all_received (ns : list notification) (w : World) (sid : nat) :
  sid < List.length (inbox w) ->
  received sid (emit_all ns w) =
  received sid w ++ flat_map (fun n => feed sid (fst n) (snd n) (plugins (router w))) ns.
Proof.
  revert w; induction ns as [|n ns IH]; intros w Hsid; simpl.
  - now rewrite app_nil_r.
  - unfold emit_all in IH. rewrite IH by (rewrite emit_length; exact Hsid).
    rewrite emit_received by exact Hsid. rewrite emit_router.
    now rewrite <- app_assoc.
Qed.

(** Registrations of other subscribers hand nothing to [sid]. *)
Lemma feed_others (sid : nat) (h : hook) (args : list value) (regs : list Registration) :
  Forall (fun reg => target (observer reg) < sid) regs ->
  feed sid h args regs = [].
Proof.
  induction 1 as [|reg regs Hreg _ IH]; simpl; auto.
  destruct (Nat.eqb_spec (target (observer reg)) sid); [lia | exact IH].
Qed.

Lemma feed_app (sid : nat) (h : hook) (args : list value) (r1 r2 : list Registration) :
  feed sid h args (r1 ++ r2) = feed sid h args r1 ++ feed sid h args r2.
Proof. unfold feed. apply flat_map_app. Qed.

(** ** Subscribing to [transition$] *)

Lemma transition_facts (autostart : bool) (o : Observer) (w : World) :
  let w' := transition_ autostart o w in
  plugins (router w') = plugins (router w) ++ [{| plugin := cyclePlugin; observer := o |}] /\
  calls (router w') =
    calls (router w) ++ (if negb (started (router w)) && autostart then [("start", [])] else []) /\
  inbox w' = inbox w /\ console w' = console w /\
  getState (router w') = getState (router w).
Proof.
  unfold transition_; simpl.
  destruct (negb (started (router w)) && autostart); simpl; repeat split; auto.
  now rewrite app_nil_r.
Qed.

(** After subscribing with an observer of its own, a subscriber receives
    what that observer makes of the event of each later notification. *)
Lemma transition_received (autostart : bool) (sid : nat) (k : value -> list value)
    (w : World) (ns : list notification) :
  sid < List.length (inbox w) ->
  Forall (fun reg => target (observer reg) < sid) (plugins (router w)) ->
  received sid (emit_all ns (transition_ autostart {| target := sid; onNext := k |} w)) =
  received sid w ++ flat_map (fun n => k (handler cyclePlugin (fst n) (snd n))) ns.
Proof.
  intros Hsid Hold.
  destruct (transition_facts autostart {| target := sid; onNext := k |} w)
    as (Hp & _ & Hi & _ & _).
  rewrite emit_all_received by (rewrite Hi; exact Hsid).
  replace (received sid (transition_ autostart {| target := sid; onNext := k |} w))
    with (received sid w) by (unfold received; now rewrite Hi).
  f_equal.
  apply flat_map_ext. intros [h args]. rewrite Hp, feed_app, feed_others by exact Hold.
  simpl. rewrite Nat.eqb_refl. now rewrite app_nil_r.
Qed.

(** A new subscriber starts with an empty inbox that no registration
    points to. *)
Lemma subscribe_slot (w : World) :
  wf w ->
  let w1 := set_inbox (inbox w ++ [[]]) w in
  List.length (inbox w) < List.length (inbox w1) /\
  Forall (fun reg => target (observer reg) < List.length (inbox w)) (plugins (router w1)) /\
  received (List.length (inbox w)) w1 = [].
Proof.
  intros H. simpl. repeat split.
  - rewrite length_app; simpl; lia.
  - exact H.
  - unfold received; simpl. rewrite nth_middle. reflexivity.
Qed.

Lemma arg_skipn (i j : nat) (args : list value) :
  arg i (skipn j args) = arg (j + i) args.
Proof.
  unfold arg. revert args; induction j as [|j IH]; intros args; simpl; auto.
  destruct args as [|a args]; simpl; auto. now destruct i.
Qed.

Lemma seed_slot (w : World) (o : Observer) (v : value) :
  wf w ->
  target o = List.length (inbox w) ->
  let w1 := deliver o v (set_inbox (inbox w ++ [[]]) w) in
  List.length (inbox w) < List.length (inbox w1) /\
  Forall (fun reg => target (observer reg) < List.length (inbox w)) (plugins (router w1)) /\
  received (List.length (inbox w)) w1 = onNext o v.
Proof.
  intros H Ht. destruct (subscribe_slot w H) as (Hl & Hf & Hr). simpl in *.
  repeat split.
  - rewrite append_at_length. exact Hl.
  - exact H.
  - change (received (List.length (inbox w))
              (deliver o v (set_inbox (inbox w ++ [[]]) w)) = onNext o v).
    rewrite deliver_received by exact Hl. rewrite Hr, Ht, Nat.eqb_refl. reflexivity.
Qed.

Lemma flat_map_single {A B : Type} (f : A -> B) (l : list A) :
  flat_map (fun x => [f x]) l = List.map f l.
Proof. induction l as [|x l IH]; simpl; congruence. Qed.

(** Unfolds a subscription to a derived stream down to the subscription to
    [transition$] it consists of, and computes what reaches the subscriber. *)
Ltac to_transition H :=
  cbv [Rx.subscribe Rx.startWith Rx.map Rx.filter
       error_ transitionRoute_ route_ routeNode_ routeState_ sliceSlate slice filter];
  cbn [target onNext];
  let X := fresh "X" in
  let Hl := fresh "Hl" in
  let Hf := fresh "Hf" in
  let Hr := fresh "Hr" in
  lazymatch goal with
  | |- context [transition_ _ _ (deliver ?o ?v (set_inbox _ ?w))] =>
      pose proof (seed_slot w o v H eq_refl) as X
  | |- context [transition_ _ _ (set_inbox _ ?w)] =>
      pose proof (subscribe_slot w H) as X
  end;
  cbv zeta in X; destruct X as (Hl & Hf & Hr);
  rewrite transition_received by eassumption;
  rewrite Hr; clear Hl Hf Hr.

(** ** [error$] *)

(** C1, as the code has it: a subscriber of [error$] receives null first and
    then one value per lifecycle notification, the error of a
    TransitionError and null for every other one. So it reads the error
    right after a TransitionError, and null again after the next
    notification that is not one. *)
Theorem error_stream_values (autostart : bool) (w : World) (ns : list notification) :
  wf w ->
  let sid := List.length (inbox w) in
  let reading (n : notification) :=
    match fst n with OnTransitionError => arg 2 (snd n) | _ => VNull end in
  received sid (emit_all ns (Rx.subscribe (error_ autostart) w)) = VNull :: List.map reading ns /\
  forall n, current sid (emit_all (ns ++ [n]) (Rx.subscribe (error_ autostart) w)) = reading n.
Proof.
  intros H sid reading.
  assert (Hall : forall ms, received sid (emit_all ms (Rx.subscribe (error_ autostart) w))
                            = VNull :: List.map reading ms).
  { intros ms. subst sid. to_transition H.
    simpl. f_equal. rewrite <- flat_map_single. apply flat_map_ext.
    intros [[] args]; try reflexivity.
    destruct args as [|? [|? [|? ?]]]; reflexivity. }
  split; [apply Hall|].
  intros n. unfold current. rewrite Hall, map_app.
  apply (last_last (VNull :: List.map reading ns)).
Qed.

Lemma error_stream_values_witness :
  wf fresh /\
  received 0 (emit_all [(OnTransitionError, [home; VNull; not_found]);
                        (OnTransitionStart, [about; VNull])]
                       (Rx.subscribe (error_ true) fresh))
  = [VNull; not_found; VNull].
Proof.
  split; [constructor|].
  exact (proj1 (error_stream_values true fresh
                  [(OnTransitionError, [home; VNull; not_found]);
                   (OnTransitionStart, [about; VNull])]
                  (Forall_nil _))).
Defined.

(** C1 as stated fails: after a TransitionError with payload [not_found], a
    TransitionSuccess makes [error$] read null again. *)
Lemma error_stream_reset_by_success :
  let w := emit_all [(OnTransitionError, [home; VNull; not_found]);
                     (OnTransitionSuccess, [about; VNull])]
                    (Rx.subscribe (error_ true) fresh) in
  received 0 w = [VNull; not_found; VNull] /\
  current 0 w = VNull /\
  current 0 w <> not_found.
Proof.
  repeat split. intros H. discriminate H.
Qed.

(** ** [transitionRoute$] *)

(** C7, as the code has it: every subscriber of [transitionRoute$], whatever
    happened before it subscribed, receives null first and then one value
    per later lifecycle notification: [toState] for a TransitionStart and
    null for every other one. Nothing is replayed. *)
Theorem transitionRoute_stream_values (autostart : bool) (w : World)
    (ns : list notification) :
  wf w ->
  let sid := List.length (inbox w) in
  let reading (n : notification) :=
    match fst n with OnTransitionStart => arg 0 (snd n) | _ => VNull end in
  received sid (emit_all ns (Rx.subscribe (transitionRoute_ autostart) w))
    = VNull :: List.map reading ns /\
  forall n, current sid (emit_all (ns ++ [n]) (Rx.subscribe (transitionRoute_ autostart) w))
            = reading n.
Proof.
  intros H sid reading.
  assert (Hall : forall ms,
             received sid (emit_all ms (Rx.subscribe (transitionRoute_ autostart) w))
             = VNull :: List.map reading ms).
  { intros ms. subst sid. to_transition H.
    simpl. f_equal. rewrite <- flat_map_single. apply flat_map_ext.
    intros [[] args]; reflexivity. }
  split; [apply Hall|].
  intros n. unfold current. rewrite Hall, map_app.
  apply (last_last (VNull :: List.map reading ns)).
Qed.

Lemma transitionRoute_stream_values_witness :
  wf fresh /\
  received 0 (emit_all [(OnTransitionStart, [home; VNull]);
                        (OnTransitionSuccess, [home; VNull])]
                       (Rx.subscribe (transitionRoute_ true) fresh))
  = [VNull; home; VNull].
Proof.
  split; [constructor|].
  exact (proj1 (transitionRoute_stream_values true fresh
                  [(OnTransitionStart, [home; VNull]);
                   (OnTransitionSuccess, [home; VNull])]
                  (Forall_nil _))).
Defined.

(** C7 as stated fails twice. A first subscriber reads [home] after a
    TransitionStart to [home]; a second one that subscribes then receives
    null, not [home]; and the TransitionSuccess that follows makes the first
    subscriber read null. *)
Lemma transitionRoute_no_replay_and_reset :
  let w1 := emit_all [(OnTransitionStart, [home; VNull])]
                     (Rx.subscribe (transitionRoute_ true) fresh) in
  let w2 := Rx.subscribe (transitionRoute_ true) w1 in
  let w3 := emit_all [(OnTransitionSuccess, [home; VNull])] w2 in
  current 0 w1 = home /\
  received 1 w2 = [VNull] /\
  received 1 w2 <> [home] /\
  current 0 w3 = VNull /\
  current 0 w3 <> home.
Proof.
  repeat split; intros H; discriminate H.
Qed.

(** ** [route$] *)

(** C6, as the code has it: the first value a subscriber of [route$]
    receives is the state the router had when [makeRouterDriver] was
    called, whatever the state is at subscription; every later value is the
    [toState] of a later TransitionSuccess whose [toState] is not null, in
    order of arrival. *)
Theorem route_stream_values (transitionPath : value -> value -> TransitionPath)
    (autostart : bool) (created w : World) (ns : list notification) :
  wf w ->
  received (List.length (inbox w))
           (emit_all ns (Rx.subscribe (route_ transitionPath autostart created) w))
  = getState (router created)
    :: flat_map (fun n => match fst n with
                          | OnTransitionSuccess =>
                              if strict_eq (arg 0 (snd n)) VNull then [] else [arg 0 (snd n)]
                          | _ => []
                          end) ns.
Proof.
  intros H. to_transition H.
  simpl. f_equal. apply flat_map_ext.
  intros [[] args]; try reflexivity.
  destruct args as [|t [|? ?]]; try destruct t; reflexivity.
Qed.

Lemma route_stream_values_witness :
  wf fresh /\
  received 0 (emit_all [(OnTransitionStart, [home; VNull]);
                        (OnTransitionSuccess, [home; VNull]);
                        (OnTransitionSuccess, [VNull; home]);
                        (OnTransitionSuccess, [about; home])]
                       (Rx.subscribe (route_ (intersection_is (VStr "")) true fresh) fresh))
  = [VNull; home; about].
Proof.
  split; [constructor|].
  exact (route_stream_values (intersection_is (VStr "")) true fresh fresh
           [(OnTransitionStart, [home; VNull]);
            (OnTransitionSuccess, [home; VNull]);
            (OnTransitionSuccess, [VNull; home]);
            (OnTransitionSuccess, [about; home])]
           (Forall_nil _)).
Defined.

(** C6 as stated fails: the driver is made while the router has no state,
    the router then moves to [home], and a subscriber of [route$] that
    arrives after that receives null first, not [home]. *)
Lemma route_seed_is_state_at_creation :
  let w1 := transition_success home fresh in
  let w2 := Rx.subscribe (route_ (intersection_is (VStr "")) true fresh) w1 in
  getState (router w1) = home /\
  received 0 w2 = [VNull] /\
  hd VUndefined (received 0 w2) <> getState (router w1).
Proof.
  repeat split. intros H. discriminate H.
Qed.

(** ** [routeNode$] *)

(** C3, as the code has it: after its seed (the state the router had when
    [routeNode$(node)] was called, unless that is null), a subscriber of
    [routeNode$(node)] receives the [toState] of exactly those
    TransitionSuccess notifications whose [toState] is not null and whose
    computed intersection is strictly equal to [node]. *)
Theorem routeNode_stream_values (transitionPath : value -> value -> TransitionPath)
    (autostart : bool) (node : value) (called w : World) (ns : list notification) :
  wf w ->
  received (List.length (inbox w))
           (emit_all ns (Rx.subscribe (routeNode_ transitionPath autostart node called) w))
  = (if strict_eq (getState (router called)) VNull then [] else [getState (router called)])
    ++ flat_map (fun n =>
                   match fst n with
                   | OnTransitionSuccess =>
                       let toState := arg 0 (snd n) in
                       let fromState := arg 1 (snd n) in
                       if negb (strict_eq toState VNull)
                          && strict_eq (intersection (transitionPath toState fromState)) node
                       then [toState] else []
                   | _ => []
                   end) ns.
Proof.
  intros H. to_transition H.
  f_equal.
  { cbn [onNext]. now destruct (strict_eq (getState (router called)) VNull). }
  apply flat_map_ext.
  intros [[] args]; try reflexivity.
  cbn -[strict_eq].
  change (strict_eq (VStr "transitionSuccess") (VStr "transitionSuccess")) with true.
  cbv iota.
  destruct (strict_eq (nth 0 args VUndefined) VNull); [reflexivity|].
  now destruct (strict_eq _ node).
Qed.

Lemma routeNode_stream_values_witness :
  wf fresh /\
  received 0 (emit_all [(OnTransitionSuccess, [home; VNull]);
                        (OnTransitionSuccess, [about; home])]
                       (Rx.subscribe
                          (routeNode_ (fun toState _ => {| intersection := get "name" toState |})
                                      true (VStr "about") fresh)
                          fresh))
  = [about].
Proof.
  split; [constructor|].
  exact (routeNode_stream_values (fun toState _ => {| intersection := get "name" toState |})
           true (VStr "about") fresh fresh
           [(OnTransitionSuccess, [home; VNull]); (OnTransitionSuccess, [about; home])]
           (Forall_nil _)).
Defined.

(** C3 as stated fails twice. The intersection ["a"] is an ancestor of the
    node ["a.b"], and [routeNode$("a.b")] receives nothing for that
    transition; and with a null intersection [routeNode$("a")] receives
    nothing either. *)
Lemma routeNode_needs_equal_intersection :
  let a_b := VObj [("name", VStr "a.b"); ("params", VObj [])] in
  let a_c := VObj [("name", VStr "a.c"); ("params", VObj [])] in
  ancestor "a" "a.b" = true /\
  received 0 (emit_all [(OnTransitionSuccess, [a_c; a_b])]
                       (Rx.subscribe
                          (routeNode_ (intersection_is (VStr "a")) true (VStr "a.b") fresh)
                          fresh)) = [] /\
  received 0 (emit_all [(OnTransitionSuccess, [home; about])]
                       (Rx.subscribe
                          (routeNode_ (intersection_is VNull) true (VStr "a") fresh)
                          fresh)) = [].
Proof.
  repeat split.
Qed.

(** ** The six filtered streams *)

(** C8, as the code has it: the stream of each hook receives something for
    exactly the notifications of that hook; the start and stop streams
    receive the bare type tag, and each of the four transition streams, the
    one of TransitionError included, receives the object of [toState] and
    [fromState] and nothing more. *)
Theorem filtered_stream_values (transitionPath : value -> value -> TransitionPath)
    (autostart : bool) (created : World) (h : hook) (w : World) (ns : list notification) :
  wf w ->
  let projection (args : list value) :=
    match h with
    | OnStart => VStr "start"
    | OnStop => VStr "stop"
    | _ => VObj [("toState", arg 0 args); ("fromState", arg 1 args)]
    end in
  received (List.length (inbox w))
           (emit_all ns (Rx.subscribe
                           (filtered (observables transitionPath autostart created) h) w))
  = flat_map (fun n => if hook_eqb (fst n) h then [projection (snd n)] else []) ns.
Proof.
  intros H projection.
  destruct h; cbn [filtered observables Bundle.start_ Bundle.stop_ Bundle.transitionStart_
                   Bundle.transitionCancel_ Bundle.transitionSuccess_
                   Bundle.transitionError_];
    to_transition H; simpl; apply flat_map_ext; intros [[] args]; reflexivity.
Qed.

Lemma filtered_stream_values_witness :
  wf fresh /\
  received 0 (emit_all [(OnStart, []);
                        (OnTransitionStart, [home; VNull]);
                        (OnTransitionError, [home; VNull; not_found])]
                       (Rx.subscribe
                          (filtered (observables (intersection_is (VStr "")) true fresh)
                                    OnTransitionError)
                          fresh))
  = [VObj [("toState", home); ("fromState", VNull)]].
Proof.
  split; [constructor|].
  exact (filtered_stream_values (intersection_is (VStr "")) true fresh OnTransitionError fresh
           [(OnStart, []);
            (OnTransitionStart, [home; VNull]);
            (OnTransitionError, [home; VNull; not_found])]
           (Forall_nil _)).
Defined.

(** C8 as stated fails for the TransitionError stream: the router reports
    the error [not_found], the event handed to the observer carries it, and
    the object [transitionError$] delivers has no [error] property. *)
Lemma transitionError_stream_drops_error :
  let delivered :=
    received 0 (emit_all [(OnTransitionError, [home; VNull; not_found])]
                         (Rx.subscribe
                            (Bundle.transitionError_
                               (observables (intersection_is (VStr "")) true fresh))
                            fresh)) in
  get "error" (handler cyclePlugin OnTransitionError [home; VNull; not_found]) = not_found /\
  delivered = [VObj [("toState", home); ("fromState", VNull)]] /\
  get "error" (hd VUndefined delivered) = VUndefined /\
  get "error" (hd VUndefined delivered) <> not_found.
Proof.
  repeat split. intros H. discriminate H.
Qed.

(** ** Registration *)

(** C9: a subscription to the unified event stream registers exactly one
    plugin, the driver's, for the new subscriber, and calls [router.start()]
    exactly when the router is not started and [autostart] is true; when the
    router is started or [autostart] is false nothing is called. *)
Theorem transition_subscription_effects (autostart : bool) (w : World) :
  let w' := Rx.subscribe (transition_ autostart) w in
  plugins (router w') =
    plugins (router w)
    ++ [{| plugin := cyclePlugin;
           observer := {| target := List.length (inbox w); onNext := fun v => [v] |} |}] /\
  calls (router w') =
    calls (router w)
    ++ match started (router w), autostart with
       | false, true => [("start", [])]
       | _, _ => []
       end.
Proof.
  cbv zeta. unfold Rx.subscribe.
  destruct (transition_facts autostart
              {| target := List.length (inbox w); onNext := fun v => [v] |}
              (set_inbox (inbox w ++ [[]]) w)) as (Hp & Hc & _).
  rewrite Hp, Hc. simpl. split; [reflexivity|].
  now destruct (started (router w)), autostart.
Qed.

Lemma slot_keeps (w : World) (sid : nat) :
  sid < List.length (inbox w) ->
  received sid (set_inbox (inbox w ++ [[]]) w) = received sid w.
Proof.
  intros H. unfold received; simpl. now apply app_nth1.
Qed.

Lemma seeded_keeps (w : World) (o : Observer) (v : value) (sid : nat) :
  target o = List.length (inbox w) ->
  sid < List.length (inbox w) ->
  received sid (deliver o v (set_inbox (inbox w ++ [[]]) w)) = received sid w.
Proof.
  intros Ht H. rewrite deliver_received by (simpl; rewrite length_app; simpl; lia).
  destruct (Nat.eqb_spec (target o) sid); [lia|].
  rewrite app_nil_r. now apply slot_keeps.
Qed.

(** Subscribing to a stream of the returned object is one subscription to
    [transition$], by an observer of the new subscriber, in a world with
    the same router and the same inboxes of the earlier subscribers. *)
Lemma derived_is_transition (transitionPath : value -> value -> TransitionPath)
    (autostart : bool) (created : World) (s : stream) (w : World) :
  exists k w1,
    Rx.subscribe (observable_of (observables transitionPath autostart created) s) w
    = transition_ autostart {| target := List.length (inbox w); onNext := k |} w1 /\
    router w1 = router w /\ console w1 = console w /\
    List.length (inbox w1) = S (List.length (inbox w)) /\
    forall sid, sid < List.length (inbox w) -> received sid w1 = received sid w.
Proof.
  assert (Hlen : List.length (inbox w ++ [[]]) = S (List.length (inbox w)))
    by (rewrite length_app; simpl; lia).
  destruct s;
    cbv [observable_of observables Bundle.start_ Bundle.stop_ Bundle.transitionStart_
         Bundle.transitionCancel_ Bundle.transitionSuccess_ Bundle.transitionError_
         Bundle.route_ Bundle.transitionRoute_ Bundle.error_ Bundle.routeNode_
         Rx.subscribe Rx.startWith Rx.map Rx.filter
         error_ transitionRoute_ route_ routeNode_ routeState_ sliceSlate slice filter];
    cbn [target onNext];
    do 2 eexists; (split; [reflexivity|]);
    (split; [reflexivity|]); (split; [reflexivity|]);
    (split; [try rewrite deliver_length; exact Hlen|]);
    intros sid Hsid;
    first [ now apply slot_keeps | now apply seeded_keeps ].
Qed.

Lemma derived_subscription_router (transitionPath : value -> value -> TransitionPath)
    (autostart : bool) (created : World) (s : stream) (w : World) :
  let w' := Rx.subscribe (observable_of (observables transitionPath autostart created) s) w in
  (exists k, plugins (router w') =
             plugins (router w)
             ++ [{| plugin := cyclePlugin;
                    observer := {| target := List.length (inbox w); onNext := k |} |}]) /\
  calls (router w') =
    calls (router w)
    ++ (if negb (started (router w)) && autostart then [("start", [])] else []) /\
  started (router w') = started (router w) || autostart /\
  List.length (inbox w') = S (List.length (inbox w)) /\
  console w' = console w.
Proof.
  cbv zeta.
  destruct (derived_is_transition transitionPath autostart created s w)
    as (k & w1 & -> & Hr & Hc & Hl & _).
  destruct (transition_facts autostart
              {| target := List.length (inbox w); onNext := k |} w1)
    as (Hp & Hcalls & Hi & Hcon & _).
  rewrite Hp, Hcalls, Hi, Hcon, Hr, Hl, Hc. repeat split; eauto.
  unfold transition_; simpl. rewrite Hr.
  destruct (started (router w)) eqn:E, autostart; simpl; rewrite ?Hr, ?E; reflexivity.
Qed.

(** ** Worlds the driver can be in *)

Lemma wf_fresh : wf fresh.
Proof. constructor. Qed.

Lemma wf_emit_all (ns : list notification) (w : World) : wf w -> wf (emit_all ns w).
Proof.
  unfold wf. now rewrite emit_all_router, emit_all_length.
Qed.

Lemma wf_subscribe (transitionPath : value -> value -> TransitionPath)
    (autostart : bool) (created : World) (s : stream) (w : World) :
  wf w ->
  wf (Rx.subscribe (observable_of (observables transitionPath autostart created) s) w).
Proof.
  intros H. unfold wf.
  destruct (derived_subscription_router transitionPath autostart created s w)
    as ((k & Hp) & _ & _ & Hl & _).
  rewrite Hp, Hl. apply Forall_app. split.
  - eapply Forall_impl; [|exact H]. simpl. lia.
  - constructor; [simpl; lia | constructor].
Qed.

(** ** The command sink *)

Lemma indexOf_from_found (i : Z) (names : list string) (s : string) :
  (0 <= i)%Z -> In s names -> (0 <= indexOf_from i names (VStr s))%Z.
Proof.
  revert i; induction names as [|n rest IH]; intros i Hi Hin; simpl in *; [tauto|].
  destruct (String.eqb_spec n s) as [_|Hne]; [exact Hi|].
  destruct Hin as [->|Hin]; [congruence|]. apply IH; [lia | exact Hin].
Qed.

Lemma indexOf_from_missing (i : Z) (names : list string) (x : value) :
  (forall s, x = VStr s -> ~ In s names) -> indexOf_from i names x = (-1)%Z.
Proof.
  revert i; induction names as [|n rest IH]; intros i H; simpl; [reflexivity|].
  destruct x; simpl; try (apply IH; intros ? ?; discriminate).
  destruct (String.eqb_spec n s) as [->|Hne].
  - exfalso. apply (H s eq_refl). now left.
  - apply IH. intros s' E Hin. apply (H s' E). now right.
Qed.

Lemma normaliseRequest_returns (req : value) (method : string) (args : list value)
    (w : World) :
  command req method args ->
  normaliseRequest req w = (console_log req w, Return (VStr method :: args)).
Proof.
  intros [m Hin | m a Hin]; unfold normaliseRequest; cbn [isArray isString orb concat app arg nth];
    pose proof (indexOf_from_found 0 sinkMethods m (Z.le_refl 0) Hin) as Hge;
    fold (indexOf sinkMethods (VStr m)) in Hge;
    destruct (Z.eqb_spec (indexOf sinkMethods (VStr m)) (-1)); try lia; reflexivity.
Qed.

Lemma normaliseRequest_throws (req : value) (w : World) :
  rejected req ->
  normaliseRequest req w = (console_log req w, Throw (Error sink_error_message)).
Proof.
  intros Hrej. unfold normaliseRequest.
  replace (indexOf sinkMethods
             (arg 0 (if isArray req || isString req then concat [] req else [])))
    with (-1)%Z; [reflexivity|].
  symmetry. apply indexOf_from_missing. intros s E Hin.
  destruct Hrej as [Hnone | (h & Hh & Hv)].
  - destruct req as [| | | | |[|x items]|]; simpl in *; discriminate.
  - apply Hv. exists s. split; [|exact Hin].
    destruct req as [| | | | |[|x items]|]; unfold arg in *; simpl in *; congruence.
Qed.

(** Every request is accepted or rejected, and never both. *)
Lemma accepted_or_rejected (req : value) : accepted req \/ rejected req.
Proof.
  assert (Hs : forall s, In s sinkMethods \/ ~ In s sinkMethods)
    by (intros s; destruct (in_dec string_dec s sinkMethods); tauto).
  destruct req as [| | | | s | [|x items] |]; try (right; left; reflexivity).
  - destruct (Hs s) as [Hin|Hout].
    + left. exists s, []. now constructor.
    + right. right. exists (VStr s). split; [reflexivity|].
      intros (s' & E & Hin). now inversion E; subst.
  - destruct x; try (right; right; eexists; split; [reflexivity|];
                     intros (s' & E & _); discriminate).
    destruct (Hs s) as [Hin|Hout].
    + left. exists s, items. now constructor.
    + right. right. exists (VStr s). split; [reflexivity|].
      intros (s' & E & Hin). now inversion E; subst.
Qed.

Lemma accepted_not_rejected (req : value) : accepted req -> ~ rejected req.
Proof.
  intros (m & a & Hc) [Hnone | (h & Hh & Hv)].
  - destruct Hc; discriminate.
  - apply Hv. exists m. destruct Hc; simpl in Hh; inversion Hh; subst; auto.
Qed.

(** What [normaliseRequest] returns starts with a method name of the sink
    vocabulary, so that [dispatch] always finds a method to call. *)
Lemma normaliseRequest_head (req : value) (w w1 : World) (normReq : list value) :
  normaliseRequest req w = (w1, Return normReq) ->
  exists method, In method sinkMethods /\ arg 0 normReq = VStr method /\
                 dispatch normReq w1 = router_apply method (tl normReq) w1.
Proof.
  intros H. destruct (accepted_or_rejected req) as [(m & a & Hc)|Hr].
  - rewrite (normaliseRequest_returns req m a w Hc) in H. inversion H; subst.
    exists m. repeat split. now destruct Hc.
  - rewrite (normaliseRequest_throws req w Hr) in H. discriminate H.
Qed.

(** An accepted request whose router method returns: the subscription goes
    on with the next request. *)
Lemma sink_accepts (req : value) (method : string) (args rest : list value) (w : World) :
  command req method args ->
  raises (router w) (started (router w)) (getState (router w)) method args = None ->
  sink_subscription (req :: rest) w =
  sink_subscription rest (router_call method args (console_log req w)).
Proof.
  intros Hc Hn. unfold sink_subscription; simpl.
  rewrite (normaliseRequest_returns req method args w Hc).
  unfold dispatch, router_apply; simpl. now rewrite Hn.
Qed.

(** An accepted request whose router method throws: the call was made, and
    the subscription is over without a word on the console. *)
Lemma sink_thrown (req : value) (method : string) (args rest : list value) (w : World)
    (e : value) :
  command req method args ->
  raises (router w) (started (router w)) (getState (router w)) method args = Some e ->
  sink_subscription (req :: rest) w =
  (router_call_thrown method args (console_log req w), Rx.Thrown e).
Proof.
  intros Hc Hn. unfold sink_subscription; simpl.
  rewrite (normaliseRequest_returns req method args w Hc).
  unfold dispatch, router_apply; simpl. now rewrite Hn.
Qed.

(** A rejected request: it is logged and reported, and the subscription is
    over. *)
Lemma sink_rejects (req : value) (rest : list value) (w : World) :
  rejected req ->
  sink_subscription (req :: rest) w =
  (console_error (Error sink_error_message) (console_log req w), Rx.Failed).
Proof.
  intros Hr. unfold sink_subscription; simpl.
  now rewrite (normaliseRequest_throws req w Hr).
Qed.

(** A stream in two parts: the second part is processed if the
    subscription is still active after the first, and ignored otherwise. *)
Lemma sink_subscription_app (pre rest : list value) (w : World) :
  sink_subscription (pre ++ rest) w =
  match snd (sink_subscription pre w) with
  | Rx.Active => sink_subscription rest (sink pre w)
  | _ => sink_subscription pre w
  end.
Proof.
  revert w; induction pre as [|req pre IH]; intros w; [reflexivity|].
  destruct (accepted_or_rejected req) as [(m & a & Hc)|Hr].
  - destruct (raises (router w) (started (router w)) (getState (router w)) m a) as [e|] eqn:E.
    + cbn [app]. unfold sink. now rewrite !(sink_thrown req m a _ w e Hc E).
    + cbn [app]. unfold sink. rewrite !(sink_accepts req m a _ w Hc E). apply IH.
  - cbn [app]. unfold sink. now rewrite !(sink_rejects req _ w Hr).
Qed.

(** While the subscription is active every request was accepted and
    dispatched, and only logged. *)
Lemma sink_active (reqs : list value) (w : World) :
  snd (sink_subscription reqs w) = Rx.Active ->
  Forall accepted reqs /\
  calls (router (sink reqs w)) = calls (router w) ++ List.map call_of reqs /\
  console (sink reqs w) = console w ++ List.map ConsoleLog reqs.
Proof.
  revert w; induction reqs as [|req reqs IH]; intros w H.
  - repeat split; [constructor | |]; simpl; now rewrite app_nil_r.
  - destruct (accepted_or_rejected req) as [(m & a & Hc)|Hr].
    + destruct (raises (router w) (started (router w)) (getState (router w)) m a)
        as [e|] eqn:E.
      * rewrite (sink_thrown req m a _ w e Hc E) in H. discriminate H.
      * unfold sink in *. rewrite (sink_accepts req m a _ w Hc E) in *.
        destruct (IH _ H) as (Ha & Hcalls & Hcon). repeat split.
        -- constructor; [now exists m, a | exact Ha].
        -- rewrite Hcalls. simpl. rewrite <- app_assoc. now destruct Hc.
        -- rewrite Hcon. simpl. now rewrite <- app_assoc.
    + rewrite (sink_rejects req _ w Hr) in H. discriminate H.
Qed.

(** The subscription is active after a stream exactly when no request of
    it was rejected and no router method called for one of them threw. *)
Lemma active_iff_undisturbed (reqs : list value) (w : World) :
  snd (sink_subscription reqs w) = Rx.Active <-> undisturbed reqs w.
Proof.
  split.
  - revert w; induction reqs as [|req reqs IH]; intros w H; [constructor|].
    destruct (accepted_or_rejected req) as [(m & a & Hc)|Hr].
    + destruct (raises (router w) (started (router w)) (getState (router w)) m a)
        as [e|] eqn:E.
      * rewrite (sink_thrown req m a _ w e Hc E) in H. discriminate H.
      * rewrite (sink_accepts req m a _ w Hc E) in H.
        econstructor; eauto.
    + rewrite (sink_rejects req _ w Hr) in H. discriminate H.
  - induction 1 as [|req m a rest w Hc Hn _ IH]; [reflexivity|].
    now rewrite (sink_accepts req m a _ w Hc Hn).
Qed.


(** The sink touches neither the registered plugins nor any inbox, and
    leaves the router's state and behaviour as they are. *)
Lemma sink_frame (reqs : list value) (w : World) :
  plugins (router (sink reqs w)) = plugins (router w) /\
  inbox (sink reqs w) = inbox w /\
  raises (router (sink reqs w)) = raises (router w).
Proof.
  unfold sink. revert w; induction reqs as [|req reqs IH]; intros w; [now repeat split|].
  destruct (accepted_or_rejected req) as [(m & a & Hc)|Hr].
  - destruct (raises (router w) (started (router w)) (getState (router w)) m a) as [e|] eqn:E.
    + rewrite (sink_thrown req m a _ w e Hc E). now repeat split.
    + rewrite (sink_accepts req m a _ w Hc E).
      destruct (IH (router_call m a (console_log req w))) as (-> & -> & ->).
      now repeat split.
  - rewrite (sink_rejects req _ w Hr). now repeat split.
Qed.

Lemma wf_sink (reqs : list value) (w : World) : wf w -> wf (sink reqs w).
Proof.
  unfold wf. destruct (sink_frame reqs w) as (-> & -> & _). auto.
Qed.

(** A router method that throws for an accepted request ends the
    subscription as well: the call was made, nothing is reported, and
    whatever follows in the stream is ignored. *)
Lemma sink_ends_at_thrown_call (pre post : list value) (req : value) (method : string)
    (args : list value) (e : value) (w : World) :
  snd (sink_subscription pre w) = Rx.Active ->
  command req method args ->
  (let r := router (sink pre w) in
   raises r (started r) (getState r) method args = Some e) ->
  sink_subscription (pre ++ req :: post) w =
  (router_call_thrown method args (console_log req (sink pre w)), Rx.Thrown e).
Proof.
  intros Hact Hc Hraise. rewrite sink_subscription_app, Hact.
  now apply sink_thrown.
Qed.

(** The well-formed command [["navigate"]] makes the router throw: it is
    logged and the call is made, nothing is reported, and the command
    ["stop"] after it is neither logged nor dispatched. *)
Example sink_halted_by_throwing_call :
  accepted (VArr [VStr "navigate"]) /\
  sink_subscription [VStr "start"; VArr [VStr "navigate"]; VStr "stop"] strict
  = ({| router := {| started := true; getState := VNull; plugins := [];
                     calls := [("start", []); ("navigate", [])];
                     raises := raises (router strict) |};
        inbox := [];
        console := [ConsoleLog (VStr "start"); ConsoleLog (VArr [VStr "navigate"])] |},
     Rx.Thrown (Error "navigate needs a route name")).
Proof.
  split; [|reflexivity]. exists "navigate", []. constructor. simpl. tauto.
Qed.

(** C2, as the code has it: a rejected command that reaches the
    subscription while it is active (no command before it was rejected and
    no router call before it threw) is logged and reported on
    [console.error], and the subscription ends there: whatever follows it
    in the stream, valid or not, is neither logged nor dispatched. The
    commands before it were dispatched in order. *)
Theorem sink_ends_at_first_rejected (pre post : list value) (bad : value) (w : World) :
  snd (sink_subscription pre w) = Rx.Active ->
  rejected bad ->
  let w' := sink (pre ++ bad :: post) w in
  w' = console_error (Error sink_error_message) (console_log bad (sink pre w)) /\
  snd (sink_subscription (pre ++ bad :: post) w) = Rx.Failed /\
  calls (router w') = calls (router w) ++ List.map call_of pre /\
  console w' = console w ++ List.map ConsoleLog pre
               ++ [ConsoleLog bad; ConsoleError (Error sink_error_message)].
Proof.
  intros Hact Hbad. cbv zeta. unfold sink at 1 3 4.
  rewrite sink_subscription_app, Hact, (sink_rejects bad post _ Hbad).
  destruct (sink_active pre w Hact) as (_ & Hc & Hl).
  repeat split; simpl.
  - exact Hc.
  - rewrite Hl, <- !app_assoc. reflexivity.
Qed.

Lemma sink_ends_at_first_rejected_witness :
  snd (sink_subscription [VStr "start"] fresh) = Rx.Active /\
  rejected (VArr [VStr "go"; VStr "home"]) /\
  calls (router (sink ([VStr "start"] ++ VArr [VStr "go"; VStr "home"] :: [VStr "stop"])
                      fresh))
  = [("start", [])].
Proof.
  assert (Ha : snd (sink_subscription [VStr "start"] fresh) = Rx.Active) by reflexivity.
  assert (Hr : rejected (VArr [VStr "go"; VStr "home"])).
  { right. exists (VStr "go"). split; [reflexivity|].
    intros (s & E & Hin). inversion E; subst. simpl in Hin.
    repeat (destruct Hin as [Hin|Hin]; [discriminate Hin|]). exact Hin. }
  split; [exact Ha | split; [exact Hr|]].
  exact (proj1 (proj2 (proj2 (sink_ends_at_first_rejected
                                [VStr "start"] [VStr "stop"] (VArr [VStr "go"; VStr "home"])
                                fresh Ha Hr)))).
Defined.

(** C2 as stated fails: after the unknown command ["bogus"], the valid
    command ["start"] of the same stream is never dispatched. *)
Lemma sink_halted_by_bad_command :
  accepted (VStr "start") /\
  calls (router (sink [VStr "bogus"; VStr "start"] fresh)) = [] /\
  console (sink [VStr "bogus"; VStr "start"] fresh)
  = [ConsoleLog (VStr "bogus"); ConsoleError (Error sink_error_message)].
Proof.
  repeat split. exists "start", []. constructor. simpl. tauto.
Qed.

(** C4, as the code has it: a well-formed command that reaches the
    subscription while it is active (no command before it was rejected and
    no router call before it threw) is logged, the router method of its
    name is called exactly once with its arguments in order, whether that
    call returns or throws, and nothing is reported on [console.error] for
    it. *)
Theorem sink_dispatches_command (req : value) (method : string) (args : list value)
    (pre : list value) (w : World) :
  command req method args ->
  snd (sink_subscription pre w) = Rx.Active ->
  let w0 := sink pre w in
  let w1 := sink (pre ++ [req]) w in
  calls (router w1) = calls (router w0) ++ [(method, args)] /\
  console w1 = console w0 ++ [ConsoleLog req].
Proof.
  intros Hc Hact. cbv zeta. unfold sink at 1 3.
  rewrite sink_subscription_app, Hact.
  destruct (raises (router (sink pre w)) (started (router (sink pre w)))
                   (getState (router (sink pre w))) method args) as [e|] eqn:E.
  - rewrite (sink_thrown req method args [] _ e Hc E). now split.
  - rewrite (sink_accepts req method args [] _ Hc E). now split.
Qed.

Lemma sink_dispatches_command_witness :
  command (VArr [VStr "navigate"; VStr "home"; VObj [("id", VNum 1)]])
          "navigate" [VStr "home"; VObj [("id", VNum 1)]] /\
  snd (sink_subscription [VStr "start"] fresh) = Rx.Active /\
  calls (router (sink ([VStr "start"]
                       ++ [VArr [VStr "navigate"; VStr "home"; VObj [("id", VNum 1)]]])
                      fresh))
  = calls (router (sink [VStr "start"] fresh))
    ++ [("navigate", [VStr "home"; VObj [("id", VNum 1)]])].
Proof.
  assert (Hc : command (VArr [VStr "navigate"; VStr "home"; VObj [("id", VNum 1)]])
                       "navigate" [VStr "home"; VObj [("id", VNum 1)]]).
  { constructor. simpl. tauto. }
  assert (Ha : snd (sink_subscription [VStr "start"] fresh) = Rx.Active) by reflexivity.
  split; [exact Hc | split; [exact Ha|]].
  exact (proj1 (sink_dispatches_command _ _ _ [VStr "start"] fresh Hc Ha)).
Defined.

(** C4 as stated fails: the well-formed command [["navigate", "home"]]
    comes after a rejected one, and [router.navigate] is never called. *)
Lemma sink_skips_command_after_rejected :
  command (VArr [VStr "navigate"; VStr "home"]) "navigate" [VStr "home"] /\
  calls (router (sink [VNum 7; VArr [VStr "navigate"; VStr "home"]] fresh)) = [].
Proof.
  split; [|reflexivity]. constructor. simpl. tauto.
Qed.

(** C5, as the code has it: for a request that is not a string and not a
    non-empty sequence, or whose head is not in the sink vocabulary,
    [normaliseRequest] throws; if it reaches the subscription while it is
    active (no request before it was rejected and no router call before it
    threw) it is logged and the error is reported on [console.error]; and
    in every stream no router method is called for it. *)
Theorem sink_rejects_request (req : value) :
  rejected req ->
  (forall w, normaliseRequest req w = (console_log req w, Throw (Error sink_error_message))) /\
  (forall pre w, snd (sink_subscription pre w) = Rx.Active ->
                 sink (pre ++ [req]) w =
                 console_error (Error sink_error_message) (console_log req (sink pre w))) /\
  (forall pre w, calls (router (sink (pre ++ [req]) w)) = calls (router (sink pre w))).
Proof.
  intros Hr. split; [|split].
  - intros w. now apply normaliseRequest_throws.
  - intros pre w Hact. unfold sink at 1.
    now rewrite sink_subscription_app, Hact, (sink_rejects req [] _ Hr).
  - intros pre w. unfold sink at 1. rewrite sink_subscription_app.
    destruct (snd (sink_subscription pre w)); try reflexivity.
    now rewrite (sink_rejects req [] _ Hr).
Qed.

Lemma sink_rejects_request_witness :
  rejected (VObj [("method", VStr "start")]) /\
  sink ([VStr "stop"] ++ [VObj [("method", VStr "start")]]) fresh
  = console_error (Error sink_error_message)
      (console_log (VObj [("method", VStr "start")]) (sink [VStr "stop"] fresh)).
Proof.
  assert (Hr : rejected (VObj [("method", VStr "start")])) by (left; reflexivity).
  split; [exact Hr|].
  apply (proj1 (proj2 (sink_rejects_request _ Hr))).
  reflexivity.
Defined.

(** C5 as stated fails: the unknown command ["bogus"] comes after a
    rejected request, and nothing is reported for it: the console holds the
    one error of the first request. *)
Lemma sink_silent_after_rejected :
  rejected (VStr "bogus") /\
  console (sink [VNum 1; VStr "bogus"] fresh)
  = [ConsoleLog (VNum 1); ConsoleError (Error sink_error_message)].
Proof.
  split; [|reflexivity].
  right. exists (VStr "bogus"). split; [reflexivity|].
  intros (s & E & Hin). inversion E; subst. simpl in Hin.
  repeat (destruct Hin as [Hin|Hin]; [discriminate Hin|]). exact Hin.
Qed.

(** ** Subscriptions are independent *)

(** A subscription and the command sink leave what the earlier subscribers
    have received as it is. *)
Lemma subscribe_keeps_inboxes (transitionPath : value -> value -> TransitionPath)
    (autostart : bool) (created : World) (s : stream) (w : World) (sid : nat) :
  sid < List.length (inbox w) ->
  received sid (Rx.subscribe (observable_of (observables transitionPath autostart created) s) w)
  = received sid w.
Proof.
  intros Hsid.
  destruct (derived_is_transition transitionPath autostart created s w)
    as (k & w1 & -> & _ & _ & _ & Hkeep).
  destruct (transition_facts autostart
              {| target := List.length (inbox w); onNext := k |} w1) as (_ & _ & Hi & _).
  unfold received at 1. rewrite Hi. now apply Hkeep.
Qed.

(** A subscription leaves the behaviour of the router's methods as it is. *)
Lemma derived_subscription_raises (transitionPath : value -> value -> TransitionPath)
    (autostart : bool) (created : World) (s : stream) (w : World) :
  raises (router (Rx.subscribe
                    (observable_of (observables transitionPath autostart created) s) w))
  = raises (router w).
Proof.
  destruct (derived_is_transition transitionPath autostart created s w)
    as (k & w1 & -> & Hr & _).
  unfold transition_.
  destruct (negb _ && autostart); simpl; now rewrite Hr.
Qed.

(** What [makeRouterDriver] returns: the sink subscribed to the requests,
    and the streams; without a second argument, [autostart] is true. *)
Lemma makeRouterDriver_returns (transitionPath : value -> value -> TransitionPath)
    (autostart : option bool) (created : World) (requests : list value) (w : World) :
  makeRouterDriver transitionPath autostart created requests w
  = (sink requests w,
     observables transitionPath
                 (match autostart with Some b => b | None => true end) created).
Proof. reflexivity. Qed.

(** C10: subscribing to any stream of the returned object registers one
    more plugin, always named CYCLE_DRIVER, for that subscriber alone, and
    calls [router.start()] if the router is not started and [autostart] is
    true; a second subscription, to the same or another stream, does all of
    it again, and where the router was stopped in between, [router.start()]
    is called a second time. *)
Theorem derived_subscriptions_register_again
    (transitionPath : value -> value -> TransitionPath)
    (autostart : bool) (created : World) (s1 s2 : stream) (w : World) :
  let stream_of b s := observable_of (observables transitionPath b created) s in
  let registered w := List.map (fun reg => (name (plugin reg), target (observer reg)))
                               (plugins (router w)) in
  let n := List.length (inbox w) in
  let w1 := Rx.subscribe (stream_of autostart s1) w in
  let w2 := Rx.subscribe (stream_of autostart s2) w1 in
  registered w1 = registered w ++ [("CYCLE_DRIVER", n)] /\
  registered w2 = registered w ++ [("CYCLE_DRIVER", n); ("CYCLE_DRIVER", S n)] /\
  calls (router w1) =
    calls (router w)
    ++ match started (router w), autostart with
       | false, true => [("start", [])]
       | _, _ => []
       end /\
  calls (router w2) =
    calls (router w1)
    ++ match started (router w1), autostart with
       | false, true => [("start", [])]
       | _, _ => []
       end /\
  calls (router (Rx.subscribe (stream_of true s2)
                   (sink [VStr "stop"] (Rx.subscribe (stream_of true s1) fresh))))
  = [("start", []); ("stop", []); ("start", [])].
Proof.
  cbv zeta.
  set (w1 := Rx.subscribe (observable_of (observables transitionPath autostart created) s1) w).
  destruct (derived_subscription_router transitionPath autostart created s1 w)
    as ((k1 & Hp1) & Hc1 & _ & Hl1 & _).
  fold w1 in Hp1, Hc1, Hl1.
  destruct (derived_subscription_router transitionPath autostart created s2 w1)
    as ((k2 & Hp2) & Hc2 & _).
  clearbody w1.
  split; [rewrite Hp1, map_app; reflexivity|].
  split; [rewrite Hp2, Hp1, !map_app, <- app_assoc, Hl1; reflexivity|].
  split; [rewrite Hc1; now destruct (started (router w)), autostart|].
  split; [rewrite Hc2; now destruct (started (router w1)), autostart|].
  destruct (derived_subscription_router transitionPath true created s1 fresh)
    as (_ & Hd1 & _).
  assert (Hstop : command (VStr "stop") "stop" []) by (constructor; simpl; tauto).
  unfold sink at 1.
  rewrite (sink_accepts (VStr "stop") "stop" [] [] _ Hstop)
    by (now rewrite derived_subscription_raises).
  fold (sink [] (router_call "stop" []
                   (console_log (VStr "stop")
                      (Rx.subscribe
                         (observable_of (observables transitionPath true created) s1)
                         fresh)))).
  destruct (derived_subscription_router transitionPath true created s2
              (sink [] (router_call "stop" []
                          (console_log (VStr "stop")
                             (Rx.subscribe
                                (observable_of (observables transitionPath true created) s1)
                                fresh)))))
    as (_ & Hd2 & _).
  rewrite Hd2. simpl. rewrite Hd1. reflexivity.
Qed.

(** ** More on [normaliseRequest] *)

Lemma returns_accepted (req : value) : returns req = true <-> accepted req.
Proof.
  unfold returns. split.
  - intros H. destruct (accepted_or_rejected req) as [Ha|Hr]; [exact Ha|].
    rewrite (normaliseRequest_throws req fresh Hr) in H. discriminate H.
  - intros (m & a & Hc). now rewrite (normaliseRequest_returns req m a fresh Hc).
Qed.

Lemma returns_rejected (req : value) : returns req = false <-> rejected req.
Proof.
  split.
  - intros H. destruct (accepted_or_rejected req) as [Ha|Hr]; [|exact Hr].
    apply returns_accepted in Ha. congruence.
  - intros Hr. unfold returns. now rewrite (normaliseRequest_throws req fresh Hr).
Qed.

(** [normaliseRequest] returns exactly for the well-formed commands, and
    then the array of the method name followed by the arguments as they
    were given (an argument that is itself an array stays one argument);
    for every other request it throws the one error of the sink. *)
Theorem normaliseRequest_characterised (req : value) (w : World) :
  (forall normReq,
      snd (normaliseRequest req w) = Return normReq <->
      exists method args, command req method args /\ normReq = VStr method :: args) /\
  (snd (normaliseRequest req w) = Throw (Error sink_error_message) <->
   forall method args, ~ command req method args).
Proof.
  destruct (accepted_or_rejected req) as [(m & a & Hc)|Hr].
  - rewrite (normaliseRequest_returns req m a w Hc). simpl. split.
    + intros n. split.
      * intros E. inversion E; subst. now exists m, a.
      * intros (m' & a' & Hc' & ->).
        destruct Hc; inversion Hc'; subst; reflexivity.
    + split; [discriminate|]. intros H. exfalso. exact (H m a Hc).
  - rewrite (normaliseRequest_throws req w Hr). simpl. split.
    + intros n. split; [discriminate|].
      intros (m & a & Hc & _). exfalso.
      apply (accepted_not_rejected req); [now exists m, a | exact Hr].
    + split; [|reflexivity]. intros _ m a Hc.
      apply (accepted_not_rejected req); [now exists m, a | exact Hr].
Qed.

(** What [normaliseRequest] returns is a request in normal form:
    normalising it again, as an array, returns the same array. *)
Theorem normaliseRequest_idempotent (req : value) (w w1 : World) (normReq : list value) :
  normaliseRequest req w = (w1, Return normReq) ->
  forall w', normaliseRequest (VArr normReq) w' = (console_log (VArr normReq) w', Return normReq).
Proof.
  intros H w'. destruct (accepted_or_rejected req) as [(m & a & Hc)|Hr].
  - rewrite (normaliseRequest_returns req m a w Hc) in H. inversion H; subst.
    apply normaliseRequest_returns. constructor. now destruct Hc.
  - rewrite (normaliseRequest_throws req w Hr) in H. discriminate H.
Qed.

Lemma normaliseRequest_idempotent_witness :
  normaliseRequest (VStr "stop") fresh = (console_log (VStr "stop") fresh, Return [VStr "stop"]) /\
  normaliseRequest (VArr [VStr "stop"]) fresh
  = (console_log (VArr [VStr "stop"]) fresh, Return [VStr "stop"]).
Proof.
  split; [reflexivity|].
  exact (normaliseRequest_idempotent (VStr "stop") fresh _ [VStr "stop"] eq_refl fresh).
Defined.

(** ** The sink over any stream *)

Lemma accepted_prefix_accepted (reqs : list value) : Forall accepted (accepted_prefix reqs).
Proof.
  induction reqs as [|req reqs IH]; simpl; [constructor|].
  destruct (returns req) eqn:E; constructor; [now apply returns_accepted | exact IH].
Qed.


Lemma firstn_Forall {A : Type} (P : A -> Prop) (l : list A) (k : nat) :
  Forall P l -> Forall P (firstn k l).
Proof.
  intros H; revert k; induction H as [|x l Hx _ IH]; intros [|k]; simpl; constructor; auto.
Qed.

Lemma first_bad_rejected (reqs : list value) (bad : value) :
  first_bad reqs = Some bad -> rejected bad.
Proof.
  induction reqs as [|req reqs IH]; simpl; [discriminate|].
  destruct (returns req) eqn:E; [exact IH|].
  intros H; inversion H; subst. now apply returns_rejected.
Qed.

Lemma call_of_in_vocabulary (req : value) :
  accepted req -> In (fst (call_of req)) sinkMethods.
Proof. intros (m & a & Hc). now destruct Hc. Qed.

Lemma call_of_command (req : value) (m : string) (a : list value) :
  command req m a -> call_of req = (m, a).
Proof. intros Hc. now destruct Hc. Qed.

(** The router calls of the sink are those of an initial segment of the
    accepted prefix of the stream; of all of it if no router method
    throws. *)
Lemma sink_segment (reqs : list value) (w : World) :
  exists k,
    k <= List.length (accepted_prefix reqs) /\
    calls (router (sink reqs w))
    = calls (router w) ++ List.map call_of (firstn k (accepted_prefix reqs)) /\
    ((forall b st m a, raises (router w) b st m a = None) ->
     k = List.length (accepted_prefix reqs)).
Proof.
  unfold sink. revert w; induction reqs as [|req reqs IH]; intros w.
  - exists 0. simpl. now rewrite app_nil_r.
  - simpl accepted_prefix. destruct (returns req) eqn:E.
    + apply returns_accepted in E. destruct E as (m & a & Hc).
      destruct (raises (router w) (started (router w)) (getState (router w)) m a)
        as [e|] eqn:Er.
      * rewrite (sink_thrown req m a _ w e Hc Er). exists 1. repeat split.
        -- simpl. lia.
        -- simpl. now rewrite (call_of_command req m a Hc).
        -- intros Hn. rewrite Hn in Er. discriminate Er.
      * rewrite (sink_accepts req m a _ w Hc Er).
        destruct (IH (router_call m a (console_log req w))) as (k & Hk & Hcalls & Hex).
        exists (S k). repeat split.
        -- simpl. lia.
        -- rewrite Hcalls. simpl. rewrite <- app_assoc.
           now rewrite (call_of_command req m a Hc).
        -- intros Hn. simpl. f_equal. apply Hex. exact Hn.
    + apply returns_rejected in E. rewrite (sink_rejects req _ w E).
      exists 0. simpl. now rewrite app_nil_r.
Qed.




(** The sink never calls anything but the six sink methods: whatever the
    requests, every call it adds is to a method of [sinkMethods], and none
    is to a query method of [sourceMethods]. *)
Theorem sink_calls_in_vocabulary (reqs : list value) (w : World) :
  exists added,
    calls (router (sink reqs w)) = calls (router w) ++ added /\
    Forall (fun c => In (fst c) sinkMethods /\ ~ In (fst c) sourceMethods) added.
Proof.
  destruct (sink_segment reqs w) as (k & _ & Hcalls & _).
  exists (List.map call_of (firstn k (accepted_prefix reqs))). split; [exact Hcalls|].
  apply Forall_map. eapply Forall_impl; [|apply firstn_Forall, accepted_prefix_accepted].
  intros req Ha. pose proof (call_of_in_vocabulary req Ha) as Hin.
  split; [exact Hin|]. intros Hsrc. simpl in Hin, Hsrc.
  repeat (destruct Hin as [Hin|Hin];
          [rewrite <- Hin in Hsrc;
           repeat (destruct Hsrc as [Hsrc|Hsrc]; [discriminate Hsrc|]); exact Hsrc|]).
  exact Hin.
Qed.

(** ** Histories *)

Lemma wf_emit (h : hook) (args : list value) (w : World) : wf w -> wf (emit h args w).
Proof. unfold wf. now rewrite emit_router, emit_length. Qed.

(** The router changing its [started] flag with a start or stop
    notification changes nothing else. *)
Lemma flag_frame (h : hook) (w : World) :
  let w0 := match h with
            | OnStart => set_started true w
            | OnStop => set_started false w
            | _ => w
            end in
  plugins (router w0) = plugins (router w) /\ inbox w0 = inbox w /\
  console w0 = console w /\ calls (router w0) = calls (router w) /\
  (h <> OnStart -> h <> OnStop -> w0 = w).
Proof.
  destruct h; cbv zeta; repeat split; congruence.
Qed.

Section HistoryFacts.

Variable transitionPath : value -> value -> TransitionPath.
Variable autostart : bool.
Variable created : World.

(** One action keeps the world well formed, keeps every existing
    subscriber, hands it what its own registrations make of a
    notification and nothing otherwise, and does not change what its
    registrations will make of later notifications. *)
Lemma step_facts (w : World) (a : action) (sid : nat) :
  wf w -> sid < List.length (inbox w) ->
  wf (step transitionPath autostart created w a) /\
  sid < List.length (inbox (step transitionPath autostart created w a)) /\
  (forall h args, feed sid h args (plugins (router (step transitionPath autostart created w a)))
                  = feed sid h args (plugins (router w))) /\
  received sid (step transitionPath autostart created w a) =
  received sid w ++ match a with
                    | Notify n => feed sid (fst n) (snd n) (plugins (router w))
                    | _ => []
                    end.
Proof.
  intros Hwf Hsid.
  destruct a as [[h args] | s | reqs]; unfold step; cbn [fst snd].
  - destruct (flag_frame h w) as (Hp & Hi & _). cbv zeta in Hp, Hi.
    set (w0 := match h with
               | OnStart => set_started true w
               | OnStop => set_started false w
               | _ => w
               end) in *.
    assert (Hwf0 : wf w0) by (unfold wf; now rewrite Hp, Hi).
    assert (Hsid0 : sid < List.length (inbox w0)) by (now rewrite Hi).
    repeat split.
    + now apply wf_emit.
    + now rewrite emit_length.
    + intros h' args'. now rewrite emit_router, Hp.
    + rewrite emit_received by exact Hsid0. rewrite Hp. unfold received. now rewrite Hi.
  - destruct (derived_subscription_router transitionPath autostart created s w)
      as ((k & Hp) & _ & _ & Hl & _).
    repeat split.
    + now apply wf_subscribe.
    + rewrite Hl. lia.
    + intros h args. rewrite Hp, feed_app. simpl.
      destruct (Nat.eqb_spec (List.length (inbox w)) sid); [lia|].
      now rewrite app_nil_r.
    + rewrite app_nil_r. now apply subscribe_keeps_inboxes.
  - change (fst (driver transitionPath autostart created reqs w)) with (sink reqs w).
    destruct (sink_frame reqs w) as (Hp & Hi & _).
    repeat split.
    + now apply wf_sink.
    + now rewrite Hi.
    + intros h args. now rewrite Hp.
    + rewrite app_nil_r. unfold received. now rewrite Hi.
Qed.

Lemma wf_run (acts : list action) (w : World) :
  wf w -> wf (run transitionPath autostart created acts w).
Proof.
  revert w; induction acts as [|a acts IH]; intros w H; [exact H|].
  apply IH. destruct a as [[h args] | s | reqs]; simpl.
  - destruct h; apply wf_emit; exact H.
  - now apply wf_subscribe.
  - now apply wf_sink.
Qed.

Lemma run_received (acts : list action) (w : World) (sid : nat) :
  wf w -> sid < List.length (inbox w) ->
  received sid (run transitionPath autostart created acts w) =
  received sid w
  ++ flat_map (fun n => feed sid (fst n) (snd n) (plugins (router w))) (notifications acts).
Proof.
  revert w; induction acts as [|a acts IH]; intros w Hwf Hsid.
  - simpl. now rewrite app_nil_r.
  - destruct (step_facts w a sid Hwf Hsid) as (Hwf' & Hsid' & Hfeed & Hrec).
    change (run transitionPath autostart created (a :: acts) w)
      with (run transitionPath autostart created acts
              (step transitionPath autostart created w a)).
    rewrite IH by assumption. rewrite Hrec, <- app_assoc. f_equal.
    unfold notifications; simpl. fold (notifications acts).
    rewrite flat_map_app. f_equal.
    + destruct a; simpl; now rewrite ?app_nil_r.
    + apply flat_map_ext. intros n. apply Hfeed.
Qed.

(** Plugins are only ever added: over any history, the plugins registered
    at its start stay registered, in place, and each subscription adds one
    more, named CYCLE_DRIVER; notifications and requests add none, and
    nothing ever removes one. *)
Theorem plugins_only_grow (acts : list action) (w : World) :
  exists added,
    plugins (router (run transitionPath autostart created acts w)) = plugins (router w) ++ added /\
    List.map (fun reg => name (plugin reg)) added = repeat "CYCLE_DRIVER" (subscriptions acts).
Proof.
  revert w; induction acts as [|a acts IH]; intros w.
  - exists []. simpl. now rewrite app_nil_r.
  - change (run transitionPath autostart created (a :: acts) w)
      with (run transitionPath autostart created acts
              (step transitionPath autostart created w a)).
    destruct (IH (step transitionPath autostart created w a)) as (added & Hp & Hn). rewrite Hp.
    destruct a as [[h args] | s | reqs]; unfold step; cbn [fst snd].
    + exists added. rewrite emit_router. destruct (flag_frame h w) as (-> & _). now split.
    + destruct (derived_subscription_router transitionPath autostart created s w)
        as ((k & Hp') & _).
      rewrite Hp', <- app_assoc. eexists. split; [reflexivity|].
      simpl. unfold subscriptions in *. simpl. now rewrite Hn.
    + change (fst (driver transitionPath autostart created reqs w)) with (sink reqs w).
      destruct (sink_frame reqs w) as (-> & _). exists added. now split.
Qed.

End HistoryFacts.

(** Whatever else happens around it, later subscriptions to any stream
    and request streams handled by the sink included, a subscriber receives
    what it would have received had the notifications of the history
    happened alone: subscriptions do not disturb one another, and the sink
    does not disturb them. *)
Theorem history_leaves_subscribers_alone
    (transitionPath : value -> value -> TransitionPath) (autostart : bool)
    (created : World) (acts : list action) (w : World) (sid : nat) :
  wf w -> sid < List.length (inbox w) ->
  received sid (run transitionPath autostart created acts w)
  = received sid (emit_all (notifications acts) w).
Proof.
  intros Hwf Hsid.
  rewrite (run_received transitionPath autostart created acts w sid Hwf Hsid).
  now rewrite emit_all_received.
Qed.

Lemma history_leaves_subscribers_alone_witness :
  let w := Rx.subscribe (error_ true) fresh in
  let acts := [Notify (OnTransitionError, [home; VNull; not_found]);
               Subscribe Route;
               Requests [VStr "bogus"; VStr "stop"];
               Notify (OnTransitionStart, [about; VNull])] in
  wf w /\ 0 < List.length (inbox w) /\
  received 0 (run (intersection_is (VStr "")) true fresh acts w)
  = received 0 (emit_all (notifications acts) w).
Proof.
  assert (Hwf : wf (Rx.subscribe (error_ true) fresh))
    by (repeat constructor).
  assert (Hsid : 0 < List.length (inbox (Rx.subscribe (error_ true) fresh)))
    by (simpl; lia).
  split; [exact Hwf | split; [exact Hsid|]].
  exact (history_leaves_subscribers_alone (intersection_is (VStr "")) true fresh _ _ 0 Hwf Hsid).
Defined.




(** ** What the streams deliver, in closed form *)

Lemma error_received (autostart : bool) (w : World) (ns : list notification) :
  wf w ->
  received (List.length (inbox w)) (emit_all ns (Rx.subscribe (error_ autostart) w))
  = VNull :: List.map (fun n => match fst n with
                                | OnTransitionError => arg 2 (snd n)
                                | _ => VNull
                                end) ns.
Proof.
  intros H. to_transition H. simpl. f_equal.
  rewrite <- flat_map_single. apply flat_map_ext.
  intros [[] args]; try reflexivity.
  destruct args as [|? [|? [|? ?]]]; reflexivity.
Qed.

Lemma transitionRoute_received (autostart : bool) (w : World) (ns : list notification) :
  wf w ->
  received (List.length (inbox w)) (emit_all ns (Rx.subscribe (transitionRoute_ autostart) w))
  = VNull :: List.map (fun n => match fst n with
                                | OnTransitionStart => arg 0 (snd n)
                                | _ => VNull
                                end) ns.
Proof.
  intros H. to_transition H. simpl. f_equal.
  rewrite <- flat_map_single. apply flat_map_ext.
  intros [[] args]; reflexivity.
Qed.

Lemma route_received (transitionPath : value -> value -> TransitionPath)
    (autostart : bool) (created w : World) (ns : list notification) :
  wf w ->
  received (List.length (inbox w))
           (emit_all ns (Rx.subscribe (route_ transitionPath autostart created) w))
  = getState (router created)
    :: flat_map (fun n => match fst n with
                          | OnTransitionSuccess =>
                              if strict_eq (arg 0 (snd n)) VNull then [] else [arg 0 (snd n)]
                          | _ => []
                          end) ns.
Proof.
  intros H. to_transition H. simpl. f_equal. apply flat_map_ext.
  intros [[] args]; try reflexivity.
  destruct args as [|t [|? ?]]; try destruct t; reflexivity.
Qed.

Lemma routeNode_received (transitionPath : value -> value -> TransitionPath)
    (autostart : bool) (node : value) (called w : World) (ns : list notification) :
  wf w ->
  received (List.length (inbox w))
           (emit_all ns (Rx.subscribe (routeNode_ transitionPath autostart node called) w))
  = (if strict_eq (getState (router called)) VNull then [] else [getState (router called)])
    ++ flat_map (fun n =>
                   match fst n with
                   | OnTransitionSuccess =>
                       if negb (strict_eq (arg 0 (snd n)) VNull)
                          && strict_eq (intersection (transitionPath (arg 0 (snd n))
                                                                     (arg 1 (snd n)))) node
                       then [arg 0 (snd n)] else []
                   | _ => []
                   end) ns.
Proof.
  intros H. to_transition H. f_equal.
  { cbn [onNext]. now destruct (strict_eq (getState (router called)) VNull). }
  apply flat_map_ext. intros [[] args]; try reflexivity.
  cbn -[strict_eq].
  change (strict_eq (VStr "transitionSuccess") (VStr "transitionSuccess")) with true.
  cbv iota.
  destruct (strict_eq (nth 0 args VUndefined) VNull); [reflexivity|].
  now destruct (strict_eq _ node).
Qed.

Lemma filtered_received (transitionPath : value -> value -> TransitionPath)
    (autostart : bool) (created : World) (h : hook) (w : World) (ns : list notification) :
  wf w ->
  received (List.length (inbox w))
           (emit_all ns (Rx.subscribe
                           (filtered (observables transitionPath autostart created) h) w))
  = flat_map (fun n => if hook_eqb (fst n) h
                       then [match h with
                             | OnStart => VStr "start"
                             | OnStop => VStr "stop"
                             | _ => VObj [("toState", arg 0 (snd n));
                                          ("fromState", arg 1 (snd n))]
                             end]
                       else []) ns.
Proof.
  intros H.
  destruct h; cbn [filtered observables Bundle.start_ Bundle.stop_ Bundle.transitionStart_
                   Bundle.transitionCancel_ Bundle.transitionSuccess_
                   Bundle.transitionError_];
    to_transition H; simpl; apply flat_map_ext; intros [[] args]; reflexivity.
Qed.

(** What a new subscriber of a stream receives is fixed by the stream and
    the notifications that follow. *)
Lemma stream_received_closed (transitionPath : value -> value -> TransitionPath)
    (autostart : bool) (created : World) (s : stream) (ns : list notification) :
  exists values,
    forall w, wf w ->
      received (List.length (inbox w))
               (emit_all ns (Rx.subscribe
                               (observable_of (observables transitionPath autostart created) s)
                               w))
      = values.
Proof.
  destruct s; eexists; intros w H.
  - apply (filtered_received transitionPath autostart created OnStart w ns H).
  - apply (filtered_received transitionPath autostart created OnStop w ns H).
  - apply (filtered_received transitionPath autostart created OnTransitionStart w ns H).
  - apply (filtered_received transitionPath autostart created OnTransitionCancel w ns H).
  - apply (filtered_received transitionPath autostart created OnTransitionSuccess w ns H).
  - apply (filtered_received transitionPath autostart created OnTransitionError w ns H).
  - apply (route_received transitionPath autostart created w ns H).
  - apply (transitionRoute_received autostart w ns H).
  - apply (error_received autostart w ns H).
  - apply (routeNode_received transitionPath autostart node called w ns H).
Qed.

Lemma later_subscription_keeps (transitionPath : value -> value -> TransitionPath)
    (autostart : bool) (created : World) (s : stream) (w : World) (sid : nat)
    (ns : list notification) :
  wf w -> sid < List.length (inbox w) ->
  received sid (emit_all ns (Rx.subscribe
                               (observable_of (observables transitionPath autostart created) s)
                               w))
  = received sid (emit_all ns w).
Proof.
  intros Hwf Hsid.
  destruct (step_facts transitionPath autostart created w (Subscribe s) sid Hwf Hsid)
    as (_ & Hsid' & Hfeed & Hrec).
  cbn [step] in Hsid', Hfeed, Hrec.
  rewrite !emit_all_received by assumption.
  rewrite Hrec, app_nil_r. f_equal. apply flat_map_ext. intros n. apply Hfeed.
Qed.

(** ** How the streams relate *)

(** The streams keep no memory: what a new subscriber of a stream receives
    depends on the stream and on the notifications that follow its
    subscription only, not on the world it subscribes in (what happened
    before, who else is subscribed, whether the router is started). *)
Theorem streams_have_no_memory (transitionPath : value -> value -> TransitionPath)
    (autostart : bool) (created : World) (s : stream) (w w' : World)
    (ns : list notification) :
  wf w -> wf w' ->
  let o := observable_of (observables transitionPath autostart created) s in
  received (List.length (inbox w)) (emit_all ns (Rx.subscribe o w))
  = received (List.length (inbox w')) (emit_all ns (Rx.subscribe o w')).
Proof.
  intros H H'. cbv zeta.
  destruct (stream_received_closed transitionPath autostart created s ns) as (values & Hv).
  rewrite (Hv w H), (Hv w' H'). reflexivity.
Qed.

Lemma streams_have_no_memory_witness :
  let busy := emit_all [(OnTransitionStart, [home; VNull]); (OnTransitionSuccess, [home; VNull])]
                       (Rx.subscribe (transitionRoute_ true) fresh) in
  let o := observable_of (observables (intersection_is (VStr "")) true fresh) TransitionRoute in
  wf fresh /\ wf busy /\
  received 0 (emit_all [(OnTransitionStart, [about; home])] (Rx.subscribe o fresh))
  = received 1 (emit_all [(OnTransitionStart, [about; home])] (Rx.subscribe o busy)).
Proof.
  assert (Hb : wf (emit_all [(OnTransitionStart, [home; VNull]);
                             (OnTransitionSuccess, [home; VNull])]
                            (Rx.subscribe (transitionRoute_ true) fresh)))
    by (repeat constructor).
  split; [constructor | split; [exact Hb|]].
  exact (streams_have_no_memory (intersection_is (VStr "")) true fresh TransitionRoute
           fresh _ [(OnTransitionStart, [about; home])] (Forall_nil _) Hb).
Defined.

(** The six filtered streams share the notifications out among them: over
    any notifications, the numbers of values their subscribers receive add
    up to the number of notifications, so that none is lost and none is
    delivered by two of the streams. *)
Theorem filtered_streams_partition (transitionPath : value -> value -> TransitionPath)
    (autostart : bool) (created : World) (w : World) (ns : list notification) :
  wf w ->
  list_sum
    (List.map (fun h => List.length
                          (received (List.length (inbox w))
                             (emit_all ns
                                (Rx.subscribe
                                   (filtered (observables transitionPath autostart created) h)
                                   w))))
              [OnStart; OnStop; OnTransitionSuccess; OnTransitionError;
               OnTransitionStart; OnTransitionCancel])
  = List.length ns.
Proof.
  intros H. cbn [List.map].
  rewrite !(filtered_received transitionPath autostart created _ w ns H).
  induction ns as [|[h args] ns IH]; [reflexivity|].
  cbn [flat_map fst snd]. rewrite !length_app.
  unfold list_sum in *. cbn [fold_right] in *.
  destruct h; cbn [hook_eqb List.length]; lia.
Qed.

Lemma filtered_streams_partition_witness :
  wf fresh /\
  list_sum
    (List.map (fun h => List.length
                          (received 0
                             (emit_all [(OnStart, []); (OnTransitionStart, [home; VNull]);
                                        (OnTransitionSuccess, [home; VNull])]
                                (Rx.subscribe
                                   (filtered (observables (intersection_is (VStr "")) true fresh)
                                             h)
                                   fresh))))
              [OnStart; OnStop; OnTransitionSuccess; OnTransitionError;
               OnTransitionStart; OnTransitionCancel])
  = 3.
Proof.
  split; [constructor|].
  exact (filtered_streams_partition (intersection_is (VStr "")) true fresh fresh
           [(OnStart, []); (OnTransitionStart, [home; VNull]);
            (OnTransitionSuccess, [home; VNull])] (Forall_nil _)).
Defined.

Lemma strict_eq_null (v : value) : strict_eq v VNull = false -> v <> VNull.
Proof. intros H ->. discriminate H. Qed.

(** [routeNode$] never delivers null: neither as its first value, when the
    router has no state yet, nor for a transition. *)
Theorem routeNode_never_null (transitionPath : value -> value -> TransitionPath)
    (autostart : bool) (node : value) (called w : World) (ns : list notification) :
  wf w ->
  Forall (fun v => v <> VNull)
         (received (List.length (inbox w))
                   (emit_all ns (Rx.subscribe
                                   (routeNode_ transitionPath autostart node called) w))).
Proof.
  intros H. rewrite routeNode_received by exact H. apply Forall_app. split.
  - destruct (strict_eq (getState (router called)) VNull) eqn:E; constructor.
    + now apply strict_eq_null.
    + constructor.
  - apply Forall_flat_map. apply Forall_forall. intros [h args] _.
    destruct h; cbn [fst snd]; try constructor.
    destruct (strict_eq (arg 0 args) VNull) eqn:E; cbn [negb andb]; [constructor|].
    destruct (strict_eq _ node); constructor; [now apply strict_eq_null | constructor].
Qed.

Lemma routeNode_never_null_witness :
  wf fresh /\
  Forall (fun v => v <> VNull)
         (received 0 (emit_all [(OnTransitionSuccess, [VNull; home]);
                                (OnTransitionSuccess, [home; VNull])]
                        (Rx.subscribe
                           (routeNode_ (intersection_is (VStr "home")) true (VStr "home") fresh)
                           fresh))).
Proof.
  split; [constructor|].
  exact (routeNode_never_null (intersection_is (VStr "home")) true (VStr "home") fresh fresh
           [(OnTransitionSuccess, [VNull; home]); (OnTransitionSuccess, [home; VNull])]
           (Forall_nil _)).
Defined.

(** [routeNode$] delivers nothing that [route$] does not: for the same
    notifications, every value a subscriber of [routeNode$(node)] receives
    is one a subscriber of [route$] receives too. *)
Theorem routeNode_within_route (transitionPath : value -> value -> TransitionPath)
    (autostart : bool) (node : value) (created w w' : World) (ns : list notification) :
  wf w -> wf w' ->
  incl (received (List.length (inbox w))
                 (emit_all ns (Rx.subscribe
                                 (routeNode_ transitionPath autostart node created) w)))
       (received (List.length (inbox w'))
                 (emit_all ns (Rx.subscribe (route_ transitionPath autostart created) w'))).
Proof.
  intros H H'. rewrite routeNode_received, route_received by assumption.
  intros v Hin. apply in_app_or in Hin. destruct Hin as [Hin|Hin].
  - left. destruct (strict_eq (getState (router created)) VNull); simpl in Hin; tauto.
  - right. apply in_flat_map in Hin. destruct Hin as ([h args] & Hn & Hv).
    apply in_flat_map. exists (h, args). split; [exact Hn|].
    destruct h; cbn [fst snd] in *; try contradiction.
    destruct (strict_eq (arg 0 args) VNull); cbn [negb andb] in Hv; [contradiction|].
    destruct (strict_eq _ node); [exact Hv | contradiction].
Qed.

Lemma routeNode_within_route_witness :
  wf fresh /\
  incl (received 0 (emit_all [(OnTransitionSuccess, [home; VNull])]
                      (Rx.subscribe
                         (routeNode_ (intersection_is (VStr "")) true (VStr "") fresh) fresh)))
       (received 0 (emit_all [(OnTransitionSuccess, [home; VNull])]
                      (Rx.subscribe (route_ (intersection_is (VStr "")) true fresh) fresh))).
Proof.
  split; [constructor|].
  exact (routeNode_within_route (intersection_is (VStr "")) true (VStr "") fresh fresh fresh
           [(OnTransitionSuccess, [home; VNull])] (Forall_nil _) (Forall_nil _)).
Defined.

(** After its first value, [route$] delivers the [toState] of what
    [transitionSuccess$] delivers, null ones left out, in the same order. *)
Theorem route_follows_transitionSuccess (transitionPath : value -> value -> TransitionPath)
    (autostart : bool) (created w w' : World) (ns : list notification) :
  wf w -> wf w' ->
  tl (received (List.length (inbox w))
               (emit_all ns (Rx.subscribe (route_ transitionPath autostart created) w)))
  = List.filter (fun v => negb (strict_eq v VNull))
      (List.map (get "toState")
         (received (List.length (inbox w'))
            (emit_all ns
               (Rx.subscribe
                  (Bundle.transitionSuccess_ (observables transitionPath autostart created))
                  w')))).
Proof.
  intros H H'. rewrite route_received by exact H.
  change (Bundle.transitionSuccess_ (observables transitionPath autostart created))
    with (filtered (observables transitionPath autostart created) OnTransitionSuccess).
  rewrite filtered_received by exact H'. cbn [tl].
  induction ns as [|[h args] ns IH]; [reflexivity|].
  cbn [flat_map fst snd]. rewrite map_app, filter_app, <- IH. f_equal.
  destruct h; try reflexivity.
  cbn [hook_eqb List.map List.filter get lookup String.eqb Ascii.eqb Bool.eqb].
  now destruct (strict_eq (arg 0 args) VNull).
Qed.

Lemma route_follows_transitionSuccess_witness :
  wf fresh /\
  tl (received 0 (emit_all [(OnTransitionSuccess, [home; VNull]);
                            (OnTransitionSuccess, [VNull; home])]
                    (Rx.subscribe (route_ (intersection_is (VStr "")) true fresh) fresh)))
  = [home].
Proof.
  split; [constructor|].
  exact (route_follows_transitionSuccess (intersection_is (VStr "")) true fresh fresh fresh
           [(OnTransitionSuccess, [home; VNull]); (OnTransitionSuccess, [VNull; home])]
           (Forall_nil _) (Forall_nil _)).
Defined.

(** [error$] and [transitionRoute$] deliver one value per notification
    after their first, and never both something else than null for the
    same notification: when one of them carries a value the other one
    reads null. *)
Theorem error_and_transitionRoute_alternate (autostart : bool) (w w' : World)
    (ns : list notification) :
  wf w -> wf w' ->
  let errors := received (List.length (inbox w))
                         (emit_all ns (Rx.subscribe (error_ autostart) w)) in
  let routes := received (List.length (inbox w'))
                         (emit_all ns (Rx.subscribe (transitionRoute_ autostart) w')) in
  List.length errors = S (List.length ns) /\
  List.length routes = S (List.length ns) /\
  Forall (fun p => fst p = VNull \/ snd p = VNull) (combine errors routes).
Proof.
  intros H H'. cbv zeta.
  rewrite error_received, transitionRoute_received by assumption.
  repeat split; try (simpl; now rewrite length_map).
  cbn [combine]. constructor; [now left|].
  induction ns as [|[h args] ns IH]; [constructor|].
  cbn [List.map combine fst snd]. constructor; [|exact IH].
  destruct h; simpl; tauto.
Qed.

Lemma error_and_transitionRoute_alternate_witness :
  wf fresh /\
  combine (received 0 (emit_all [(OnTransitionStart, [home; VNull]);
                                 (OnTransitionError, [home; VNull; not_found])]
                         (Rx.subscribe (error_ true) fresh)))
          (received 0 (emit_all [(OnTransitionStart, [home; VNull]);
                                 (OnTransitionError, [home; VNull; not_found])]
                         (Rx.subscribe (transitionRoute_ true) fresh)))
  = [(VNull, VNull); (VNull, home); (not_found, VNull)] /\
  Forall (fun p => fst p = VNull \/ snd p = VNull)
         (combine (received 0 (emit_all [(OnTransitionStart, [home; VNull]);
                                         (OnTransitionError, [home; VNull; not_found])]
                                 (Rx.subscribe (error_ true) fresh)))
                  (received 0 (emit_all [(OnTransitionStart, [home; VNull]);
                                         (OnTransitionError, [home; VNull; not_found])]
                                 (Rx.subscribe (transitionRoute_ true) fresh)))).
Proof.
  split; [constructor | split; [reflexivity|]].
  exact (proj2 (proj2 (error_and_transitionRoute_alternate true fresh fresh
                         [(OnTransitionStart, [home; VNull]);
                          (OnTransitionError, [home; VNull; not_found])]
                         (Forall_nil _) (Forall_nil _)))).
Defined.

(** Without a second argument [makeRouterDriver] starts the router: on a
    router that is not started, the first subscription to any stream of the
    returned object calls [router.start()], exactly as with [true]; with
    [false] no subscription ever calls the router. *)
Theorem autostart_defaults_to_true (transitionPath : value -> value -> TransitionPath)
    (created : World) (reqs : list value) (w0 : World) (s : stream) (w : World) :
  started (router w) = false ->
  let bundle autostart := snd (makeRouterDriver transitionPath autostart created reqs w0) in
  calls (router (Rx.subscribe (observable_of (bundle None) s) w))
  = calls (router w) ++ [("start", [])] /\
  calls (router (Rx.subscribe (observable_of (bundle (Some true)) s) w))
  = calls (router w) ++ [("start", [])] /\
  calls (router (Rx.subscribe (observable_of (bundle (Some false)) s) w))
  = calls (router w).
Proof.
  intros Hs. cbv zeta. unfold makeRouterDriver, driver. cbn [snd].
  destruct (derived_subscription_router transitionPath true created s w) as (_ & Ht & _).
  destruct (derived_subscription_router transitionPath false created s w) as (_ & Hf & _).
  rewrite Ht, Hf, Hs. simpl. now rewrite app_nil_r.
Qed.

Lemma autostart_defaults_to_true_witness :
  started (router fresh) = false /\
  calls (router (Rx.subscribe
                   (observable_of
                      (snd (makeRouterDriver (intersection_is (VStr "")) None fresh [] fresh))
                      Route)
                   fresh))
  = [("start", [])].
Proof.
  split; [reflexivity|].
  exact (proj1 (autostart_defaults_to_true (intersection_is (VStr "")) fresh [] fresh
                  Route fresh eq_refl)).
Defined.

(** ** [sourceApi] *)

Lemma property_set_same {A : Type} (k : string) (v : A) (o : list (string * A)) :
  property k (set_property k v o) = Some v.
Proof.
  induction o as [|[k' v'] o IH]; simpl.
  - now rewrite String.eqb_refl.
  - destruct (String.eqb k k') eqn:E; simpl; rewrite ?String.eqb_refl, ?E; auto.
Qed.

Lemma property_set_other {A : Type} (k k' : string) (v : A) (o : list (string * A)) :
  k <> k' -> property k (set_property k' v o) = property k o.
Proof.
  intros Hne. apply String.eqb_neq in Hne.
  induction o as [|[k0 v0] o IH]; simpl.
  - now rewrite Hne.
  - destruct (String.eqb k' k0) eqn:E; simpl.
    + apply String.eqb_eq in E; subst. now rewrite Hne.
    + now rewrite IH.
Qed.

(** The [reduce] gives every method of the list a forwarder to the router
    method of the same name, and leaves the other properties as they are. *)
Lemma reduce_methods_property
    (router_method : string -> list value -> World -> World * value)
    (methods : list string) (init : list (string * (list value -> World -> World * value)))
    (m : string) :
  property m (reduce_methods router_method methods init) =
  if in_dec string_dec m methods
  then Some (fun args => router_method m args)
  else property m init.
Proof.
  unfold reduce_methods. revert init; induction methods as [|n methods IH]; intros init.
  - reflexivity.
  - cbn [fold_left]. rewrite IH.
    destruct (in_dec string_dec m methods) as [Hin|Hout];
      destruct (in_dec string_dec m (n :: methods)) as [Hin'|Hout']; simpl in *; try tauto.
    + destruct Hin' as [->|Hin']; [|tauto]. apply property_set_same.
    + apply property_set_other. intros ->. tauto.
Qed.

(** [sourceApi] has the seven query methods, in the order of
    [sourceMethods], and nothing else; each forwards its arguments as they
    are to the router method of the same name and returns what that
    returns; and no sink method can be reached through it. *)
Theorem sourceApi_forwards_queries
    (router_method : string -> list value -> World -> World * value) :
  List.map fst (sourceApi router_method) = sourceMethods /\
  (forall m, match property m (sourceApi router_method) with
             | Some f => In m sourceMethods /\
                         forall args w, f args w = router_method m args w
             | None => ~ In m sourceMethods
             end) /\
  Forall (fun m => property m (sourceApi router_method) = None) sinkMethods.
Proof.
  split; [reflexivity|]. split.
  - intros m. unfold sourceApi. rewrite reduce_methods_property.
    destruct (in_dec string_dec m sourceMethods) as [Hin|Hout].
    + split; [exact Hin | reflexivity].
    + exact Hout.
  - repeat constructor.
Qed.
